(** * flash-scalper: Paradex connectivity and position-risk engine

    A shallow embedding of the parts of the TypeScript sources that the
    specification talks about:

    - [SymbolMapper]   (services/execution/symbol-mapper.ts)
    - [KlineBuilder]   (services/execution/paradex-kline-builder.ts)
    - [SignedRest]     (services/execution/paradex-rest-client.ts, the
                        HMAC-signed client with its retry loop)
    - [JwtRest]        (services/paradex/rest-client.ts, the JWT client)
    - [Agent]          (services/paradex/paradex-agent.ts)

    Numbers.  A JavaScript [number] that holds a price, a size, a P&L or a
    ROE is modelled as an exact rational ([Q]); rounding, NaN and the
    infinities of IEEE doubles are outside the model.  The one division
    of the agent, P&L by margin, leaves the finite numbers when the margin
    is 0: [AgentRoe] has it with its infinities and its NaN, and the
    statements about the ROE in [Q] carry the hypothesis that the margin
    is not 0.  Millisecond
    timestamps and counters are integers ([Z]); for the magnitudes that
    occur (below 2^53) [Math.floor (a / b)] on doubles is the floor
    division [Z.div].  [parseFloat] of the exchange's decimal strings is
    taken as already done: records carry the parsed value.

    Asynchrony.  Node runs the code on one event loop.  An [async] method
    is modelled by splitting it at its [await]: the part before it runs
    inside the event that calls the method, the part after it is an event
    of its own that carries the awaited result. *)

From stdpp Require Import gmap strings list.
From Stdlib Require Import ZArith QArith Qminmax Lia Lqa.
From Stdlib Require Import Ascii DecimalString.
From stdpp Require Import sorting.

Local Open Scope string_scope.
Local Open Scope list_scope.
Local Open Scope Z_scope.

(** ** JavaScript helpers *)

Module Js.

(** [String.prototype.includes]. *)
Fixpoint includes (s sub : string) : bool :=
  if String.prefix sub s then true
  else match s with
       | EmptyString => false
       | String _ s' => includes s' sub
       end.

(** Decimal rendering of an integer, as [Number.prototype.toString]
    gives for integers. *)
Definition string_of_Z (z : Z) : string :=
  NilZero.string_of_int (Z.to_int z).

(** [Math.max] and [Math.min] on finite numbers. *)
Definition max (a b : Q) : Q := Qmax a b.
Definition min (a b : Q) : Q := Qmin a b.

(** [a <= b], [a >= b], [a > b] and [a === b] on finite numbers. *)
Definition le (a b : Q) : bool := Qle_bool a b.
Definition ge (a b : Q) : bool := Qle_bool b a.
Definition gt (a b : Q) : bool := negb (Qle_bool a b).
Definition eq (a b : Q) : bool := Qeq_bool a b.

End Js.

(** ** SymbolMapper *)

Module SymbolMapper.

(** [s.replace(/USDT$/, '')]: the pattern is anchored at the end of the
    input, so at most the final four characters are removed. *)
Fixpoint strip_USDT (s : string) : string :=
  match s with
  | EmptyString => EmptyString
  | String c s' =>
      if String.eqb s "USDT" then EmptyString else String c (strip_USDT s')
  end.

(** [s.split('-')[0]]: the text before the first dash (all of [s] when it
    has none). *)
Fixpoint split_dash_0 (s : string) : string :=
  match s with
  | EmptyString => EmptyString
  | String c s' =>
      if Ascii.eqb c "-"%char then EmptyString else String c (split_dash_0 s')
  end.

Definition toParadex (symbol : string) : string :=
  let base := strip_USDT symbol in
  base +:+ "-USD-PERP".

Definition fromParadex (market : string) : string :=
  let base := split_dash_0 market in
  base +:+ "USDT".

Definition getParadexMarket (symbol : string) (paradexMarket : option string) : string :=
  match paradexMarket with
  | Some m => if String.eqb m "" then toParadex symbol else m
  | None => toParadex symbol
  end.

(** The base has no dash. *)
Fixpoint no_dash (s : string) : bool :=
  match s with
  | EmptyString => true
  | String c s' => negb (Ascii.eqb c "-"%char) && no_dash s'
  end.

End SymbolMapper.

(** ** ParadexKlineBuilder *)

Module KlineBuilder.

Record Kline := mkKline {
  openTime : Z;
  open : Q;
  high : Q;
  low : Q;
  close : Q;
  volume : Q;
  closeTime : Z;
}.

(** A trade as [processTrade] sees it after its two [parseFloat]s. *)
Record ParadexTrade := mkTrade {
  market : string;
  price : Q;
  size : Q;
  timestamp : Z;
}.

(** The table [INTERVAL_MS]; a string that is not a key of the table reads
    as [undefined]. *)
Definition INTERVAL_MS (interval : string) : option Z :=
  if String.eqb interval "1m" then Some (60 * 1000)
  else if String.eqb interval "3m" then Some (3 * 60 * 1000)
  else if String.eqb interval "5m" then Some (5 * 60 * 1000)
  else if String.eqb interval "15m" then Some (15 * 60 * 1000)
  else if String.eqb interval "30m" then Some (30 * 60 * 1000)
  else if String.eqb interval "1h" then Some (60 * 60 * 1000)
  else if String.eqb interval "2h" then Some (2 * 60 * 60 * 1000)
  else if String.eqb interval "4h" then Some (4 * 60 * 60 * 1000)
  else if String.eqb interval "1d" then Some (24 * 60 * 60 * 1000)
  else None.

(** The builder object: [klines] is the closed history per market,
    [currentKline] the open candle per market. *)
Record t := mkBuilder {
  klines : gmap string (list Kline);
  currentKline : gmap string Kline;
  interval : string;
  intervalMs : Z;
  maxKlines : Z;
}.

(** [new ParadexKlineBuilder(interval, maxKlines)]; the defaults of the
    constructor are ["5m"] and [100].  For the names an object literal
    inherits the lookup gives no number: see
    [KlineQueries.constructedIntervalMs]. *)
Definition new (interval : string) (maxKlines : Z) : t :=
  {| klines := ∅;
     currentKline := ∅;
     interval := interval;
     intervalMs := match INTERVAL_MS interval with
                   | Some ms => ms
                   | None => 5 * 60 * 1000
                   end;
     maxKlines := maxKlines |}.

Definition getKlineStartTime (b : t) (timestamp : Z) : Z :=
  (timestamp / intervalMs b) * intervalMs b.

(** [marketKlines.push(kline)] followed by the size limit: one [shift()]
    when the length has passed [maxKlines]. *)
Definition push_limited (maxKlines : Z) (marketKlines : list Kline) (kline : Kline)
  : list Kline :=
  let pushed := marketKlines ++ [kline] in
  if Z.of_nat (length pushed) >? maxKlines then tail pushed else pushed.

Definition closeKline (b : t) (market : string) (kline : Kline) : t :=
  let marketKlines := default [] (klines b !! market) in
  {| klines := <[market := push_limited (maxKlines b) marketKlines kline]> (klines b);
     currentKline := currentKline b;
     interval := interval b;
     intervalMs := intervalMs b;
     maxKlines := maxKlines b |}.

(** The candle a trade opens. *)
Definition startKline (b : t) (klineStartTime : Z) (trade : ParadexTrade) : Kline :=
  {| openTime := klineStartTime;
     open := price trade;
     high := price trade;
     low := price trade;
     close := price trade;
     volume := size trade;
     closeTime := klineStartTime + intervalMs b - 1 |}.

(** The in-place update of the open candle. *)
Definition updateKline (k : Kline) (trade : ParadexTrade) : Kline :=
  {| openTime := openTime k;
     open := open k;
     high := Js.max (high k) (price trade);
     low := Js.min (low k) (price trade);
     close := price trade;
     volume := (volume k + size trade)%Q;
     closeTime := closeTime k |}.

Definition setCurrent (b : t) (market : string) (k : Kline) : t :=
  {| klines := klines b;
     currentKline := <[market := k]> (currentKline b);
     interval := interval b;
     intervalMs := intervalMs b;
     maxKlines := maxKlines b |}.

Definition processTrade (b : t) (trade : ParadexTrade) : t :=
  let market := market trade in
  let klineStartTime := getKlineStartTime b (timestamp trade) in
  match currentKline b !! market with
  | None =>
      setCurrent b market (startKline b klineStartTime trade)
  | Some cur =>
      if negb (openTime cur =? klineStartTime) then
        let b' := closeKline b market cur in
        setCurrent b' market (startKline b' klineStartTime trade)
      else
        setCurrent b market (updateKline cur trade)
  end.

Definition getCurrentKline (b : t) (market : string) : option Kline :=
  currentKline b !! market.

(** The closed history of a market, oldest first. *)
Definition history (b : t) (market : string) : list Kline :=
  default [] (klines b !! market).

Definition getKlineCount (b : t) (market : string) : Z :=
  Z.of_nat (length (history b market))
  + match currentKline b !! market with Some _ => 1 | None => 0 end.

Definition clearMarket (b : t) (market : string) : t :=
  {| klines := delete market (klines b);
     currentKline := delete market (currentKline b);
     interval := interval b;
     intervalMs := intervalMs b;
     maxKlines := maxKlines b |}.

Definition clearAll (b : t) : t :=
  {| klines := ∅;
     currentKline := ∅;
     interval := interval b;
     intervalMs := intervalMs b;
     maxKlines := maxKlines b |}.

(** The calls that change a builder. *)
Inductive op :=
| ProcessTrade (trade : ParadexTrade)
| ClearMarket (market : string)
| ClearAll.

Definition run_op (b : t) (o : op) : t :=
  match o with
  | ProcessTrade trade => processTrade b trade
  | ClearMarket m => clearMarket b m
  | ClearAll => clearAll b
  end.

Definition run (b : t) (ops : list op) : t := fold_left run_op ops b.

Definition ingest (b : t) (trades : list ParadexTrade) : t :=
  fold_left processTrade trades b.

(** A market name for the scenarios. *)
Definition btc : string := "BTC-USD-PERP".

(** The bound on the history of every market. *)
Definition bounded (b : t) : Prop :=
  forall (m : string) (l : list Kline),
    klines b !! m = Some l -> Z.of_nat (length l) <= maxKlines b.

End KlineBuilder.

(** ** ParadexRestClient of services/execution: the signed client *)

Module SignedRest.

Inductive Method := GET | POST | DELETE.

(** A thrown value: the two fields of an [Error] that the code reads. *)
Record JsError := mkError {
  name : string;
  message : string;
}.

(** What the network does with one [fetch].  Either the promise rejects
    and no response was received, or a response arrives with its [ok]
    flag and status; reading its body ([text()] or [json()]) then gives
    the data or rejects. *)
Inductive FetchOutcome :=
| FetchRejected (e : JsError)
| FetchResponse (ok : bool) (status : Z) (body : JsError + string).

(** How [request] ends: the promise resolves with the parsed body or
    rejects. *)
Inductive RequestResult :=
| Resolved (data : string)
| Thrown (e : JsError).

Definition isNetworkError (e : JsError) : bool :=
  Js.includes (message e) "fetch failed"
  || Js.includes (message e) "timeout"
  || String.eqb (name e) "AbortError".

Definition apiError (status : Z) (errorBody : string) : JsError :=
  {| name := "Error";
     message := "Paradex API error " +:+ Js.string_of_Z status +:+ ": " +:+ errorBody |}.

(** The [catch] block of one attempt: [None] stands for [continue]. *)
Definition onCatch (error : JsError) (attempt retries : Z) : option RequestResult :=
  if isNetworkError error && (attempt <? retries) then None
  else Some (Thrown error).

(** The body of the [for] loop for one attempt, given what its [fetch]
    did: [None] stands for [continue]. *)
Definition attemptOnce (outcome : FetchOutcome) (attempt retries : Z)
  : option RequestResult :=
  match outcome with
  | FetchRejected error => onCatch error attempt retries
  | FetchResponse false status (inr errorBody) =>
      if attempt <? retries then None
      else onCatch (apiError status errorBody) attempt retries
  | FetchResponse false status (inl error) => onCatch error attempt retries
  | FetchResponse true status (inr data) => Some (Resolved data)
  | FetchResponse true status (inl error) => Some (Thrown error)
  end.

(** [for (let attempt = 0; attempt <= retries; attempt++)]: [n] bounds the
    iterations left, [net k] is what the network does with the fetch of
    attempt [k].  The result comes with the number of fetches issued. *)
Fixpoint requestLoop (n : nat) (attempt retries : Z) (net : Z -> FetchOutcome)
  : RequestResult * Z :=
  match n with
  | O => (Thrown (mkError "Error" "Request failed after all retries"), attempt)
  | S n' =>
      if attempt <=? retries then
        match attemptOnce (net attempt) attempt retries with
        | Some r => (r, attempt + 1)
        | None => requestLoop n' (attempt + 1) retries net
        end
      else (Thrown (mkError "Error" "Request failed after all retries"), attempt)
  end.

(** [request(method, endpoint, params, retries)].  Method, endpoint and
    parameters decide what is signed and sent; they do not enter the
    retry logic. *)
Definition request (method : Method) (endpoint : string) (retries : Z)
    (net : Z -> FetchOutcome) : RequestResult * Z :=
  requestLoop (Z.to_nat (retries + 1)) 0 retries net.

(** The number of fetches a call sent. *)
Definition fetches (r : RequestResult * Z) : Z := snd r.

Record OrderResult := mkOrderResult {
  success : bool;
  orderData : option string;
  error : option string;
}.

(** [placeMarketOrder]: one POST to [/v1/orders] with the default number
    of retries, 3. *)
Definition placeMarketOrder (net : Z -> FetchOutcome) : OrderResult * Z :=
  let r := request POST "/v1/orders" 3 net in
  match fst r with
  | Resolved order => (mkOrderResult true (Some order) None, fetches r)
  | Thrown e => (mkOrderResult false None (Some (message e)), fetches r)
  end.

(** A response was received for the attempt. *)
Definition responseReceived (o : FetchOutcome) : bool :=
  match o with
  | FetchRejected _ => false
  | FetchResponse _ _ _ => true
  end.

(** Attempt ended with an error response whose body could be read. *)
Definition httpError (o : FetchOutcome) : bool :=
  match o with
  | FetchResponse false _ (inr _) => true
  | _ => false
  end.

(** Attempt ended with an exception that [isNetworkError] accepts. *)
Definition networkFailure (o : FetchOutcome) : bool :=
  match o with
  | FetchRejected e => isNetworkError e
  | FetchResponse false _ (inl e) => isNetworkError e
  | _ => false
  end.

(** A network that answers the first fetch with status 500 and the later
    ones with status 200. *)
Definition error_then_ok (k : Z) : FetchOutcome :=
  if k =? 0 then FetchResponse false 500 (inr "busy")
  else FetchResponse true 200 (inr "{}").

End SignedRest.

(** ** ParadexRestClient of services/paradex: the JWT client *)

Module JwtRest.

(** [ParadexAPIResponse<{ jwt; expires_at }>]. *)
Record JwtData := mkJwtData {
  jwt : string;
  expires_at : Z;
}.

Record JwtResponse := mkJwtResponse {
  success : bool;
  data : option JwtData;
}.

(** The two cache fields of the client, with what the model observes of
    the refresh traffic: [refreshLog] holds the timestamp of every
    POST /auth/jwt that [getJWT] has issued, [inFlight] counts those
    whose response has not come back yet. *)
Record t := mkClient {
  jwtToken : option string;
  jwtExpiry : option Z;
  refreshLog : list Z;
  inFlight : nat;
}.

Definition new : t :=
  {| jwtToken := None; jwtExpiry := None; refreshLog := []; inFlight := 0 |}.

(** Truthiness of a string field and of a number field. *)
Definition truthyString (o : option string) : bool :=
  match o with
  | Some s => negb (String.eqb s "")
  | None => false
  end.

Definition truthyNumber (o : option Z) : bool :=
  match o with
  | Some n => negb (n =? 0)
  | None => false
  end.

(** The guard of [getJWT]:
    [this.jwtToken && this.jwtExpiry && Date.now() < this.jwtExpiry - 60000]. *)
Definition cacheValid (c : t) (now : Z) : bool :=
  truthyString (jwtToken c)
  && truthyNumber (jwtExpiry c)
  && (now <? default 0 (jwtExpiry c) - 60000).

(** [getJWT] up to its [await]: the cached token, or a refresh request
    sent with the current time as its timestamp. *)
Definition getJWT_begin (c : t) (now : Z) : t * option string :=
  if cacheValid c now then (c, jwtToken c)
  else
    ({| jwtToken := jwtToken c;
        jwtExpiry := jwtExpiry c;
        refreshLog := refreshLog c ++ [now];
        inFlight := S (inFlight c) |}, None).

(** [getJWT] after its [await]: the response of the refresh request is
    stored when it succeeded; otherwise the call throws and the cache is
    left as it was. *)
Definition getJWT_resume (c : t) (response : JwtResponse) : t * option string :=
  match success response, data response with
  | true, Some d =>
      ({| jwtToken := Some (jwt d);
          jwtExpiry := Some (expires_at d);
          refreshLog := refreshLog c;
          inFlight := pred (inFlight c) |}, Some (jwt d))
  | _, _ =>
      ({| jwtToken := jwtToken c;
          jwtExpiry := jwtExpiry c;
          refreshLog := refreshLog c;
          inFlight := pred (inFlight c) |}, None)
  end.

(** What the event loop runs on the client: an attempt of an
    authenticated [request] reaches [await this.getJWT()] at time [now]
    (every attempt of the retry loop asks for the token again), or the
    response of an outstanding refresh request arrives. *)
Inductive event :=
| AuthenticatedCall (now : Z)
| RefreshResponse (response : JwtResponse).

Definition step (c : t) (e : event) : t :=
  match e with
  | AuthenticatedCall now => fst (getJWT_begin c now)
  | RefreshResponse response =>
      match inFlight c with
      | O => c
      | S _ => fst (getJWT_resume c response)
      end
  end.

Definition run (c : t) (es : list event) : t := fold_left step es c.

End JwtRest.

(** ** ParadexTradingAgent *)

Module Agent.

Inductive Side := long | short.
Inductive OrderSide := buy | sell.
Inductive OrderStatus := open | filled | partially_filled | cancelled | rejected.

(** [ParadexPosition] of the API, numeric strings parsed. *)
Record ParadexPosAPI := mkApiPos {
  api_market : string;
  api_side : Side;
  api_size : Q;
  api_entry_price : Q;
  api_mark_price : Q;
  api_unrealized_pnl : Q;
  api_leverage : Q;
  api_margin_used : Q;
  api_timestamp : Z;
}.

Record Position := mkPosition {
  id : string;
  p_agentId : string;
  p_userId : string;
  symbol : string;
  side : Side;
  size : Q;
  entryPrice : Q;
  currentPrice : Q;
  leverage : Q;
  marginUsed : Q;
  unrealizedPnl : Q;
  unrealizedROE : Q;
  highestROE : Q;
  lowestROE : Q;
  openedAt : Z;
  updatedAt : Z;
}.

(** The fields of [ScalperConfig] that the agent's exit rules read. *)
Record ScalperConfig := mkConfig {
  stopLossROE : Q;
  takeProfitROE : Q;
  maxHoldTimeMinutes : Q;
}.

(** The fields of [ParadexOrder] that matter to a caller. *)
Record ParadexOrder := mkOrder {
  order_id : string;
  order_status : OrderStatus;
  order_filled_size : Q;
}.

(** [ParadexAPIResponse<ParadexOrder>]. *)
Record OrderResponse := mkOrderResponse {
  success : bool;
  data : option ParadexOrder;
}.

(** The arguments of one [restClient.placeMarketOrder] call. *)
Record MarketOrderCall := mkCall {
  call_market : string;
  call_side : OrderSide;
  call_size : Q;
  call_reduce_only : bool;
}.

(** The events the agent emits.  Two of them go out under the one name
    ['position_closed']: [EmPositionGone] is the one of
    [handlePositionUpdate], whose payload is the market of a position
    message of size 0; [EmPositionClosed] is the one of [closePosition],
    whose payload is the position, the reason, the P&L and the ROE. *)
Inductive Emitted :=
| EmTicker (market : string)
| EmPositionUpdate (position : Position)
| EmPositionGone (market : string)
| EmPositionClosed (position : Position) (reason : string) (pnl roe : Q).

(** The agent.  [positions] is the [Map<string, Position>]: it holds
    references to [Position] objects, which live in [heap] (a reference
    is an index).  [orders] lists the [placeMarketOrder] calls made so
    far; [awaiting] maps the index of such a call to the suspended
    [closePosition] that waits for it: the [position] reference and the
    [reason] it was called with.  [emitted] lists the events emitted. *)
Record State := mkState {
  agentId : string;
  userId : string;
  equity : Q;
  dailyPnL : Q;
  totalPnL : Q;
  positions : gmap string nat;
  heap : list Position;
  totalTrades : Z;
  winningTrades : Z;
  config : ScalperConfig;
  priceCache : gmap string (Q * Z);
  orders : list MarketOrderCall;
  awaiting : gmap nat (nat * string);
  emitted : list Emitted;
}.

Definition init (agentId userId : string) (config : ScalperConfig) : State :=
  {| agentId := agentId; userId := userId; equity := 0; dailyPnL := 0; totalPnL := 0;
     positions := ∅; heap := []; totalTrades := 0; winningTrades := 0;
     config := config; priceCache := ∅; orders := []; awaiting := ∅;
     emitted := [] |}.

(** Field updates. *)
Definition setPositions (s : State) (ps : gmap string nat) : State :=
  mkState (agentId s) (userId s) (equity s) (dailyPnL s) (totalPnL s) ps (heap s)
    (totalTrades s) (winningTrades s) (config s) (priceCache s) (orders s)
    (awaiting s) (emitted s).

Definition setHeap (s : State) (h : list Position) : State :=
  mkState (agentId s) (userId s) (equity s) (dailyPnL s) (totalPnL s) (positions s) h
    (totalTrades s) (winningTrades s) (config s) (priceCache s) (orders s)
    (awaiting s) (emitted s).

Definition emit (s : State) (e : Emitted) : State :=
  mkState (agentId s) (userId s) (equity s) (dailyPnL s) (totalPnL s) (positions s) (heap s)
    (totalTrades s) (winningTrades s) (config s) (priceCache s) (orders s)
    (awaiting s) (emitted s ++ [e]).

(** The position object a market maps to. *)
Definition livePosition (s : State) (market : string) : option Position :=
  ref ← positions s !! market; heap s !! ref.

(** [convertPosition].  The quotient of the ROE is that of JavaScript for
    a margin other than 0; [AgentRoe.convertPosition] has it for every
    margin. *)
Definition convertPosition (s : State) (apiPos : ParadexPosAPI) (now : Z)
  : option Position :=
  let size := api_size apiPos in
  if Js.eq size 0 then None
  else
    let side := match api_side apiPos with long => long | short => short end in
    let entryPrice := api_entry_price apiPos in
    let currentPrice := api_mark_price apiPos in
    let unrealizedPnl := api_unrealized_pnl apiPos in
    let marginUsed := api_margin_used apiPos in
    let leverage := api_leverage apiPos in
    let unrealizedROE := ((unrealizedPnl / marginUsed) * 100)%Q in
    Some {| id := agentId s +:+ "-" +:+ api_market apiPos +:+ "-" +:+ Js.string_of_Z now;
            p_agentId := agentId s;
            p_userId := userId s;
            symbol := api_market apiPos;
            side := side;
            size := size;
            entryPrice := entryPrice;
            currentPrice := currentPrice;
            leverage := leverage;
            marginUsed := marginUsed;
            unrealizedPnl := unrealizedPnl;
            unrealizedROE := unrealizedROE;
            highestROE := unrealizedROE;
            lowestROE := unrealizedROE;
            openedAt := api_timestamp apiPos;
            updatedAt := now |}.

(** [this.state.positions.set(market, position)] with a fresh object. *)
Definition storePosition (s : State) (market : string) (position : Position) : State :=
  let ref := length (heap s) in
  setPositions (setHeap s (heap s ++ [position])) (<[market := ref]> (positions s)).

Definition handlePositionUpdate (s : State) (apiPosition : ParadexPosAPI) (now : Z)
  : State :=
  match convertPosition s apiPosition now with
  | Some position =>
      emit (storePosition s (api_market apiPosition) position)
           (EmPositionUpdate position)
  | None =>
      emit (setPositions s (delete (api_market apiPosition) (positions s)))
           (EmPositionGone (api_market apiPosition))
  end.

(** [syncPositions] after its [await]: the loop over [response.data]. *)
Definition syncPositions_resume (s : State) (data : list ParadexPosAPI) (now : Z)
  : State :=
  fold_left
    (fun s apiPos =>
       match convertPosition s apiPos now with
       | Some position => storePosition s (api_market apiPos) position
       | None => s
       end)
    data s.

(** [closePosition] up to its [await]: the reduce-only market order is
    handed to the REST client and the method suspends. *)
Definition closePosition (s : State) (ref : nat) (position : Position)
    (reason : string) : State :=
  let closeSide := match side position with long => sell | short => buy end in
  let call := mkCall (symbol position) closeSide (size position) true in
  mkState (agentId s) (userId s) (equity s) (dailyPnL s) (totalPnL s) (positions s) (heap s)
    (totalTrades s) (winningTrades s) (config s) (priceCache s)
    (orders s ++ [call])
    (<[length (orders s) := (ref, reason)]> (awaiting s))
    (emitted s).

(** [closePosition] after its [await], with the response of the order
    call; [position] is the object the method was called with, read as
    it is now. *)
Definition closePosition_resume (s : State) (position : Position) (reason : string)
    (response : OrderResponse) : State :=
  match success response, data response with
  | true, Some _ =>
      let pnl := unrealizedPnl position in
      emit
        (mkState (agentId s) (userId s) (equity s)
           (dailyPnL s + pnl)%Q (totalPnL s + pnl)%Q
           (delete (symbol position) (positions s)) (heap s)
           (totalTrades s + 1)
           (if Js.gt pnl 0 then winningTrades s + 1 else winningTrades s)
           (config s) (priceCache s) (orders s) (awaiting s) (emitted s))
        (EmPositionClosed position reason pnl (unrealizedROE position))
  | _, _ => s
  end.

Definition checkPositionExitConditions (s : State) (ref : nat) (position : Position)
    (now : Z) : State :=
  let config := config s in
  if Js.le (unrealizedROE position) (stopLossROE config) then
    closePosition s ref position "stop_loss"
  else
    let takeProfitTarget := takeProfitROE config in
    if Js.ge (unrealizedROE position) takeProfitTarget then
      closePosition s ref position "take_profit"
    else
      let holdTimeMinutes := (inject_Z (now - openedAt position) / 60000)%Q in
      if Js.ge holdTimeMinutes (maxHoldTimeMinutes config) then
        closePosition s ref position "max_hold_time"
      else s.

(** The assignments of [updatePositionPrices] to the position object.
    The quotient of the ROE is that of JavaScript for a margin other than
    0; [AgentRoe.updatePositionPrices] has it for every margin. *)
Definition reprice (position : Position) (price : Q) (now : Z) : Position :=
  let priceChange :=
    match side position with
    | long => (price - entryPrice position)%Q
    | short => (entryPrice position - price)%Q
    end in
  let unrealizedPnl := (priceChange * size position)%Q in
  let unrealizedROE := ((unrealizedPnl / marginUsed position) * 100)%Q in
  {| id := id position;
     p_agentId := p_agentId position;
     p_userId := p_userId position;
     symbol := symbol position;
     side := side position;
     size := size position;
     entryPrice := entryPrice position;
     currentPrice := price;
     leverage := leverage position;
     marginUsed := marginUsed position;
     unrealizedPnl := unrealizedPnl;
     unrealizedROE := unrealizedROE;
     highestROE := Js.max (highestROE position) unrealizedROE;
     lowestROE := Js.min (lowestROE position) unrealizedROE;
     openedAt := openedAt position;
     updatedAt := now |}.

Definition updatePositionPrices (s : State) (market : string) (price : Q) (now : Z)
  : State :=
  match positions s !! market with
  | None => s
  | Some ref =>
      match heap s !! ref with
      | None => s
      | Some position =>
          let position' := reprice position price now in
          checkPositionExitConditions
            (setHeap s (<[ref := position']> (heap s))) ref position' now
      end
  end.

Definition handleTickerUpdate (s : State) (market : string) (last_price : Q)
    (timestamp now : Z) : State :=
  let s1 :=
    mkState (agentId s) (userId s) (equity s) (dailyPnL s) (totalPnL s) (positions s) (heap s)
      (totalTrades s) (winningTrades s) (config s)
      (<[market := (last_price, timestamp)]> (priceCache s))
      (orders s) (awaiting s) (emitted s) in
  updatePositionPrices (emit s1 (EmTicker market)) market last_price now.

(** What the event loop runs on the agent.  [now] is the value of
    [Date.now()] while the event is handled. *)
Inductive event :=
| Ticker (market : string) (last_price : Q) (timestamp now : Z)
| PositionsMsg (apiPosition : ParadexPosAPI) (now : Z)
| PositionsSynced (data : list ParadexPosAPI) (now : Z)
| OrderReturned (call : nat) (response : OrderResponse)
| OrderThrew (call : nat).

(** The suspended [closePosition] of call [call] gives up its entry. *)
Definition wake (s : State) (call : nat) : State :=
  mkState (agentId s) (userId s) (equity s) (dailyPnL s) (totalPnL s) (positions s) (heap s)
    (totalTrades s) (winningTrades s) (config s) (priceCache s) (orders s)
    (delete call (awaiting s)) (emitted s).

Definition step (s : State) (e : event) : State :=
  match e with
  | Ticker market last_price timestamp now =>
      handleTickerUpdate s market last_price timestamp now
  | PositionsMsg apiPosition now => handlePositionUpdate s apiPosition now
  | PositionsSynced data now => syncPositions_resume s data now
  | OrderReturned call response =>
      match awaiting s !! call with
      | Some (ref, reason) =>
          match heap s !! ref with
          | Some position => closePosition_resume (wake s call) position reason response
          | None => wake s call
          end
      | None => s
      end
  | OrderThrew call => wake s call
  end.

Definition run (s : State) (es : list event) : State := fold_left step es s.

(** The close orders placed so far for a market. *)
Definition closeOrdersFor (s : State) (market : string) : list MarketOrderCall :=
  filter (fun c => call_market c = market) (orders s).


(** A market name for the scenarios. *)
Definition btc : string := "BTC-USD-PERP".

(** The order [closePosition] places for a position. *)
Definition closeCall (p : Position) : MarketOrderCall :=
  mkCall (symbol p) (match side p with long => sell | short => buy end) (size p) true.

(** One of the three exit conditions holds for [p] once repriced. *)
Definition exitDue (cfg : ScalperConfig) (p : Position) (price : Q) (now : Z) : bool :=
  Js.le (unrealizedROE (reprice p price now)) (stopLossROE cfg)
  || Js.ge (unrealizedROE (reprice p price now)) (takeProfitROE cfg)
  || Js.ge (inject_Z (now - openedAt p) / 60000)%Q (maxHoldTimeMinutes cfg).

(** Stop-loss at -5 %, take-profit at +10 %, one hour of hold time. *)
Definition cfg0 : ScalperConfig := mkConfig (-5) 10 60.

(** A long position of size 1 entered at 100 with margin 10. *)
Definition apiLong : ParadexPosAPI := mkApiPos btc long 1 100 100 0 10 10 0.

Definition opened : State := run (init "agent" "system" cfg0) [PositionsMsg apiLong 0].

(** Both thresholds crossed at once: stop-loss at 5, take-profit at 3 and
    a ROE of 4. *)
Definition bothCrossed : Position :=
  mkPosition "p" "agent" "system" btc long 1 100 104 1 100 4 4 4 4 0 0.

(** A state with the position open and its close order awaiting the
    response of the exchange. *)
Definition closing : State := run opened [Ticker btc 90 1 1].


End Agent.

(** ** Numbers that are not finite *)

Module JsNumber.

(** A [number] as a division of finite numbers leaves it: a finite value,
    an infinity or NaN. *)
Inductive num :=
| Fin (q : Q)
| Inf (positive : bool)
| NaN.

(** [a / b] for finite [a] and [b].  A divisor 0 is the [+0] that
    [parseFloat] gives for ["0"]; [0 / 0] is NaN whatever the signs. *)
Definition div (a b : Q) : num :=
  if Js.eq b 0 then
    if Js.eq a 0 then NaN else Inf (Js.gt a 0)
  else Fin (a / b).

(** [x * k] for a finite [k]. *)
Definition mul (x : num) (k : Q) : num :=
  match x with
  | Fin q => Fin (q * k)
  | Inf positive =>
      if Js.eq k 0 then NaN
      else Inf (if Js.gt k 0 then positive else negb positive)
  | NaN => NaN
  end.

(** [Math.max] and [Math.min]: NaN when an argument is NaN. *)
Definition max (x y : num) : num :=
  match x, y with
  | NaN, _ | _, NaN => NaN
  | Inf true, _ | _, Inf true => Inf true
  | Inf false, z | z, Inf false => z
  | Fin a, Fin b => Fin (Js.max a b)
  end.

Definition min (x y : num) : num :=
  match x, y with
  | NaN, _ | _, NaN => NaN
  | Inf false, _ | _, Inf false => Inf false
  | Inf true, z | z, Inf true => z
  | Fin a, Fin b => Fin (Js.min a b)
  end.

(** [x <= y]: false when an argument is NaN. *)
Definition le (x y : num) : bool :=
  match x, y with
  | NaN, _ | _, NaN => false
  | Inf false, _ | _, Inf true => true
  | Inf true, _ | _, Inf false => false
  | Fin a, Fin b => Js.le a b
  end.

End JsNumber.

(** ** The agent: the ROE of a position as JavaScript computes it *)

Module AgentRoe.
Import JsNumber.

(** The three ROE fields of a [Position]. *)
Record Roe := mkRoe {
  unrealizedROE : num;
  highestROE : num;
  lowestROE : num;
}.

(** [convertPosition]: the ROE fields of the position it returns. *)
Definition convertPosition (apiPos : Agent.ParadexPosAPI) : option Roe :=
  let size := Agent.api_size apiPos in
  if Js.eq size 0 then None
  else
    let unrealizedPnl := Agent.api_unrealized_pnl apiPos in
    let marginUsed := Agent.api_margin_used apiPos in
    let unrealizedROE := mul (div unrealizedPnl marginUsed) 100 in
    Some {| unrealizedROE := unrealizedROE;
            highestROE := unrealizedROE;
            lowestROE := unrealizedROE |}.

(** [updatePositionPrices]: the ROE fields it assigns to a position whose
    ROE fields are [r]. *)
Definition updatePositionPrices (position : Agent.Position) (r : Roe) (price : Q) : Roe :=
  let priceChange :=
    match Agent.side position with
    | Agent.long => (price - Agent.entryPrice position)%Q
    | Agent.short => (Agent.entryPrice position - price)%Q
    end in
  let unrealizedPnl := (priceChange * Agent.size position)%Q in
  let unrealizedROE := mul (div unrealizedPnl (Agent.marginUsed position)) 100 in
  {| unrealizedROE := unrealizedROE;
     highestROE := max (highestROE r) unrealizedROE;
     lowestROE := min (lowestROE r) unrealizedROE |}.






End AgentRoe.

(** ** ParadexKlineBuilder: the read side *)

Module KlineQueries.
Import KlineBuilder.

(** [Array.prototype.slice(start)]: a negative [start] counts from the
    end, and both ends are clamped to the array. *)
Definition slice_from {A : Type} (start : Z) (l : list A) : list A :=
  let len := Z.of_nat (length l) in
  let k := if start <? 0 then Z.max (len + start) 0 else Z.min start len in
  drop (Z.to_nat k) l.

(** A cell of the Binance-style row: a number or a string. *)
Inductive cell :=
| Num (n : Z)
| Str (s : string).

Section Rows.

(** [Number.prototype.toString] on a price or a volume. *)
Variable toString : Q -> string.

Definition row (kline : Kline) : list cell :=
  [ Num (openTime kline);
    Str (toString (open kline));
    Str (toString (high kline));
    Str (toString (low kline));
    Str (toString (close kline));
    Str (toString (volume kline));
    Num (closeTime kline);
    Str "0"; Num 0; Str "0"; Str "0"; Str "0" ].

(** The candles [getKlines] selects before it formats them: the closed
    history with the open candle at the end, cut to the last [limitToUse]
    when there are more.  [limit || this.maxKlines] takes [maxKlines] for
    a missing limit and for the limit 0. *)
Definition selectKlines (b : t) (market : string) (limit : option Z) : list Kline :=
  let klines := default [] (klines b !! market) in
  let allKlines :=
    klines ++ match currentKline b !! market with
              | Some currentKline => [currentKline]
              | None => []
              end in
  let limitToUse :=
    match limit with
    | Some l => if l =? 0 then maxKlines b else l
    | None => maxKlines b
    end in
  if Z.of_nat (length allKlines) >? limitToUse
  then slice_from (- limitToUse) allKlines
  else allKlines.

Definition getKlines (b : t) (market : string) (limit : option Z) : list (list cell) :=
  map row (selectKlines b market limit).

End Rows.

Definition hasEnoughData (b : t) (market : string) (requiredKlines : Z) : bool :=
  getKlineCount b market >=? requiredKlines.

(** The property names that the object literal [INTERVAL_MS] inherits
    from [Object.prototype]. *)
Definition objectPrototypeKeys : list string :=
  [ "constructor"; "__defineGetter__"; "__defineSetter__"; "hasOwnProperty";
    "__lookupGetter__"; "__lookupSetter__"; "isPrototypeOf";
    "propertyIsEnumerable"; "toString"; "valueOf"; "__proto__";
    "toLocaleString" ].

(** [INTERVAL_MS[interval] || INTERVAL_MS['5m']] of the constructor, when
    it is a number: the entry of the table, or the entry of ['5m'] for a
    string the lookup answers with [undefined].  For an inherited property
    name the lookup answers with a function or an object, which is truthy
    and no number of milliseconds: [None]. *)
Definition constructedIntervalMs (interval : string) : option Z :=
  match INTERVAL_MS interval with
  | Some ms => Some ms
  | None =>
      if bool_decide (interval ∈ objectPrototypeKeys) then None
      else INTERVAL_MS "5m"
  end.

(** The candles a builder holds for a market, oldest first. *)
Definition candles (b : t) (market : string) : list Kline :=
  history b market ++ match currentKline b !! market with
                      | Some k => [k]
                      | None => []
                      end.

(** A candle as [processTrade] builds them. *)
Definition wellFormed (intervalMs : Z) (k : Kline) : Prop :=
  (low k <= open k)%Q /\ (open k <= high k)%Q
  /\ (low k <= close k)%Q /\ (close k <= high k)%Q
  /\ openTime k mod intervalMs = 0
  /\ closeTime k = openTime k + intervalMs - 1.

(** Every candle of the builder is well formed. *)
Definition allWellFormed (b : t) : Prop :=
  0 < intervalMs b
  /\ (forall m l, klines b !! m = Some l -> Forall (wellFormed (intervalMs b)) l)
  /\ (forall m k, currentKline b !! m = Some k -> wellFormed (intervalMs b) k).

(** Strictly increasing open times. *)
Definition increasing (l : list Kline) : Prop :=
  StronglySorted (fun a b => openTime a < openTime b) l.

(** What trades in timestamp order keep: per market the candles are in
    strictly increasing order, a history comes with an open candle, and
    the open candle starts on a bucket boundary not after [last]. *)
Definition ordered (b : t) (last : Z) : Prop :=
  0 < intervalMs b
  /\ forall m,
      increasing (candles b m)
      /\ (currentKline b !! m = None -> history b m = [])
      /\ (forall k, currentKline b !! m = Some k ->
            openTime k <= last /\ openTime k mod intervalMs b = 0).

(** Non-decreasing timestamps. *)
Fixpoint inOrder (last : Z) (trades : list ParadexTrade) : Prop :=
  match trades with
  | [] => True
  | trade :: rest => last <= timestamp trade /\ inOrder (timestamp trade) rest
  end.

End KlineQueries.

(** ** The signed client: positions and order queries *)

Module SignedRestMore.
Import SignedRest.

Inductive PositionSide := LONG | SHORT.

(** A position of the account response; its numbers are still strings. *)
Record ParadexPosition := mkParadexPosition {
  market : string;
  side : PositionSide;
  size : string;
  entry_price : string;
  mark_price : string;
  unrealized_pnl : string;
  margin : string;
  leverage : option string;
}.

Record ExchangePosition := mkExchangePosition {
  symbol : string;
  positionAmt : string;
  entryPrice : string;
  unrealizedProfit : string;
  ex_leverage : string;
  marginType : string;
  isolatedMargin : string;
}.

Section Positions.

Variable parseFloat : string -> Q.

Definition toExchangePosition (p : ParadexPosition) : ExchangePosition :=
  {| symbol := SymbolMapper.fromParadex (market p);
     positionAmt := match side p with
                    | SHORT => "-" +:+ size p
                    | LONG => size p
                    end;
     entryPrice := entry_price p;
     unrealizedProfit := unrealized_pnl p;
     ex_leverage := match leverage p with
                    | Some l => if String.eqb l "" then "1" else l
                    | None => "1"
                    end;
     marginType := "cross";
     isolatedMargin := margin p |}.

(** [getPositions] after [await this.getAccount()]. *)
Definition getPositions (positions : list ParadexPosition) : list ExchangePosition :=
  List.map toExchangePosition
    (List.filter (fun p => negb (Js.eq (parseFloat (size p)) 0)) positions).

(** [getPosition(symbol)]: the first position with that symbol, or null. *)
Definition getPosition (positions : list ParadexPosition) (symbol' : string)
  : option ExchangePosition :=
  List.find (fun p => String.eqb (symbol p) symbol') (getPositions positions).

End Positions.

(** [cancelOrder] and [orderExists]: one request with the default 3
    retries; any rejection answers false. *)
Definition cancelOrder (orderId : string) (net : Z -> FetchOutcome) : bool :=
  match fst (request DELETE ("/v1/orders/" +:+ orderId) 3 net) with
  | Resolved _ => true
  | Thrown _ => false
  end.

Definition orderExists (orderId : string) (net : Z -> FetchOutcome) : bool :=
  match fst (request GET ("/v1/orders/" +:+ orderId) 3 net) with
  | Resolved _ => true
  | Thrown _ => false
  end.

(** Attempt ended in a way the loop retries. *)
Definition retryable (o : FetchOutcome) : Prop :=
  httpError o = true \/ networkFailure o = true.

(** What the last attempt of a call that only met retryable failures
    throws. *)
Definition lastFailure (o : FetchOutcome) : option JsError :=
  match o with
  | FetchRejected e => Some e
  | FetchResponse false status (inr errorBody) => Some (apiError status errorBody)
  | FetchResponse false status (inl e) => Some e
  | FetchResponse true _ _ => None
  end.

End SignedRestMore.

(** ** The JWT client: the request loop *)

Module JwtRequest.
Import SignedRest.

(** [ParadexAPIResponse<T>]; the timestamp field is left out. *)
Record APIResponse := mkAPIResponse {
  success : bool;
  data : option string;
  error : option string;
}.

(** How the promise of [request] settles. *)
Inductive Settled :=
| Returned (r : APIResponse)
| Rejected (e : JsError).

(** What one attempt meets: [await this.getJWT()] gives a token or
    throws, and the [fetch] that follows rejects or gives a response. *)
Record Attempt := mkAttempt {
  token : JsError + string;
  fetched : FetchOutcome;
}.

(** [handleResponse]: reading the body may reject. *)
Definition handleResponse (ok : bool) (status : Z) (body : JsError + string) : Settled :=
  match body with
  | inl e => Rejected e
  | inr text =>
      if negb ok then
        Returned (mkAPIResponse false None
                    (Some ("HTTP " +:+ Js.string_of_Z status +:+ ": " +:+ text)))
      else Returned (mkAPIResponse true (Some text) None)
  end.

(** The [catch] block: [None] stands for the backoff and the next
    iteration. *)
Definition onCatch (e : JsError) (attempt retries : Z) : option Settled :=
  if attempt =? retries
  then Some (Returned (mkAPIResponse false None (Some (message e))))
  else None.

(** One iteration of the loop.  [return this.handleResponse(response)] is
    not awaited inside the [try], so a rejection of [handleResponse]
    leaves [request] as it is. *)
Definition attemptOnce (authenticated : bool) (a : Attempt) (attempt retries : Z)
  : option Settled :=
  match (if authenticated then token a else inr "") with
  | inl e => onCatch e attempt retries
  | inr _ =>
      match fetched a with
      | FetchRejected e => onCatch e attempt retries
      | FetchResponse ok status body => Some (handleResponse ok status body)
      end
  end.

Fixpoint requestLoop (n : nat) (authenticated : bool) (attempt retries : Z)
    (net : Z -> Attempt) : Settled * Z :=
  match n with
  | O => (Returned (mkAPIResponse false None (Some "Request failed after all retries")),
          attempt)
  | S n' =>
      if attempt <=? retries then
        match attemptOnce authenticated (net attempt) attempt retries with
        | Some r => (r, attempt + 1)
        | None => requestLoop n' authenticated (attempt + 1) retries net
        end
      else (Returned (mkAPIResponse false None (Some "Request failed after all retries")),
            attempt)
  end.

(** [request(method, endpoint, body, authenticated, retries)] with the
    number of loop iterations it ran. *)
Definition request (method : Method) (endpoint : string) (authenticated : bool)
    (retries : Z) (net : Z -> Attempt) : Settled * Z :=
  requestLoop (Z.to_nat (retries + 1)) authenticated 0 retries net.

(** [placeOrder]: an authenticated POST with the default 3 retries. *)
Definition placeOrder (net : Z -> Attempt) : Settled * Z :=
  request POST "/orders" true 3 net.

(** The attempt ended in the [catch] block. *)
Definition threw (authenticated : bool) (a : Attempt) : Prop :=
  (authenticated = true /\ exists e, token a = inl e)
  \/ exists e, fetched a = FetchRejected e.

(** An order placement that is answered with status 500. *)
Definition rejected500 (k : Z) : Attempt :=
  mkAttempt (inr "jwt") (FetchResponse false 500 (inr "busy")).

End JwtRequest.

(** ** The agent: statistics *)

Module AgentMore.
Import Agent.

(** The [winRate] of [getStats] and [tick]. *)
Definition winRate (s : State) : Q :=
  if totalTrades s >? 0
  then (inject_Z (winningTrades s) / inject_Z (totalTrades s))%Q
  else 0%Q.

(** A successful response to an order call. *)
Definition accepted (order : ParadexOrder) : OrderResponse :=
  mkOrderResponse true (Some order).

(** The order [closePosition] would place for one of the position
    objects the agent has created. *)
Definition mirrorsPosition (s : State) (c : MarketOrderCall) : Prop :=
  exists p, p ∈ heap s /\ c = closeCall p.

(** The statistics the agent keeps, against what it emitted. *)
Definition statsConsistent (s : State) : Prop :=
  0 <= winningTrades s <= totalTrades s
  /\ dailyPnL s = totalPnL s
  /\ totalTrades s
     = Z.of_nat (length (List.filter
                           (fun e => match e with
                                     | EmPositionClosed _ _ _ _ => true
                                     | _ => false
                                     end)
                           (emitted s))).

(** The number of [position_closed] events that [closePosition] emitted. *)
Definition closedCount (es : list Emitted) : Z :=
  Z.of_nat (length (List.filter
                      (fun e => match e with EmPositionClosed _ _ _ _ => true | _ => false end)
                      es)).

(** The number of events emitted under the name ['position_closed'],
    by [closePosition] or by [handlePositionUpdate]. *)
Definition positionClosedEvents (es : list Emitted) : Z :=
  Z.of_nat (length (List.filter
                      (fun e => match e with
                                | EmPositionClosed _ _ _ _ | EmPositionGone _ => true
                                | _ => false
                                end)
                      es)).

(** The event is a position message of size 0. *)
Definition sizeZeroMessage (e : event) : bool :=
  match e with
  | PositionsMsg apiPosition _ => Js.eq (api_size apiPosition) 0
  | _ => false
  end.

(** The number of position messages of size 0 among the events. *)
Definition sizeZeroMessages (es : list event) : Z :=
  Z.of_nat (length (List.filter sizeZeroMessage es)).

End AgentMore.

(** ** ParadexWebSocketClient of services/paradex: connection upkeep *)

Module StreamSession.

Inductive Emitted :=
| EmDisconnected (code : Z)
| EmConnected.

(** The fields of the client that its connection upkeep reads and
    writes.  [ws] is [None] for [null], [Some true] for a socket whose
    [readyState] is OPEN and [Some false] for a socket in another state.
    [timers] lists the delays of the reconnect timers set with
    [setTimeout] that have not fired yet; the client keeps no handle on
    them. *)
Record t := mkSession {
  ws : option bool;
  reconnectAttempts : Z;
  subscriptions : list string;
  isAuthenticated : bool;
  isConnecting : bool;
  pingInterval : bool;
  timers : list Z;
  emitted : list Emitted;
}.

Definition maxReconnectAttempts : Z := 10.
Definition reconnectDelay : Z := 5000.

Definition new : t :=
  {| ws := None; reconnectAttempts := 0; subscriptions := [];
     isAuthenticated := false; isConnecting := false; pingInterval := false;
     timers := []; emitted := [] |}.

Definition scheduleReconnect (s : t) : t :=
  let attempts := reconnectAttempts s + 1 in
  let delay := Z.min (reconnectDelay * attempts) 60000 in
  {| ws := ws s; reconnectAttempts := attempts; subscriptions := subscriptions s;
     isAuthenticated := isAuthenticated s; isConnecting := isConnecting s;
     pingInterval := pingInterval s;
     timers := timers s ++ [delay]; emitted := emitted s |}.

(** The handler of the socket's [close] event; the socket has left the
    OPEN state by then. *)
Definition onClose (s : t) (code : Z) : t :=
  let s1 :=
    {| ws := match ws s with Some _ => Some false | None => None end;
       reconnectAttempts := reconnectAttempts s; subscriptions := subscriptions s;
       isAuthenticated := false; isConnecting := false; pingInterval := false;
       timers := timers s; emitted := emitted s ++ [EmDisconnected code] |} in
  if negb (code =? 1000) && (reconnectAttempts s1 <? maxReconnectAttempts)
  then scheduleReconnect s1
  else s1.

(** [connect()] up to the creation of the socket. *)
Definition connect (s : t) : t :=
  match ws s with
  | Some true => s
  | _ =>
      if isConnecting s then s
      else {| ws := Some false; reconnectAttempts := reconnectAttempts s;
              subscriptions := subscriptions s; isAuthenticated := isAuthenticated s;
              isConnecting := true; pingInterval := pingInterval s;
              timers := timers s; emitted := emitted s |}
  end.

(** The handler of the [open] event of a client made without a JWT, so
    that [authenticate] is skipped; the socket is in the OPEN state by
    then.  Its one [await] is that of [resubscribe], which changes none
    of these fields: [subscribe] adds keys the set already holds. *)
Definition onOpen (s : t) : t :=
  {| ws := Some true; reconnectAttempts := 0; subscriptions := subscriptions s;
     isAuthenticated := isAuthenticated s; isConnecting := false;
     pingInterval := true; timers := timers s;
     emitted := emitted s ++ [EmConnected] |}.

Definition disconnect (s : t) : t :=
  match ws s with
  | Some _ =>
      {| ws := None; reconnectAttempts := reconnectAttempts s; subscriptions := [];
         isAuthenticated := false; isConnecting := isConnecting s;
         pingInterval := false; timers := timers s; emitted := emitted s |}
  | None => s
  end.

(** The oldest reconnect timer fires and calls [connect()]. *)
Definition timerFires (s : t) : t :=
  match timers s with
  | [] => s
  | _ :: rest =>
      connect {| ws := ws s; reconnectAttempts := reconnectAttempts s;
                 subscriptions := subscriptions s; isAuthenticated := isAuthenticated s;
                 isConnecting := isConnecting s; pingInterval := pingInterval s;
                 timers := rest; emitted := emitted s |}
  end.

(** A run of [close] events with the given codes. *)
Definition closes (s : t) (codes : list Z) : t := fold_left onClose codes s.

(** [str.split(':')]. *)
Fixpoint split_colon (s : string) : list string :=
  match s with
  | EmptyString => [EmptyString]
  | String c s' =>
      if Ascii.eqb c ":"%char then EmptyString :: split_colon s'
      else match split_colon s' with
           | [] => [String c EmptyString]
           | seg :: segs => String c seg :: segs
           end
  end.

(** The key under which [subscribe] and [unsubscribe] keep a channel:
    a missing or empty market gives the channel alone. *)
Definition subscriptionKey (channel : string) (market : option string) : string :=
  match market with
  | Some m => if String.eqb m "" then channel else channel +:+ ":" +:+ m
  | None => channel
  end.

(** [const [channel, market] = sub.split(':')] of [resubscribe]. *)
Definition parseKey (sub : string) : option string * option string :=
  let segs := split_colon sub in
  (segs !! 0%nat, segs !! 1%nat).

Fixpoint no_colon (s : string) : bool :=
  match s with
  | EmptyString => true
  | String c s' => negb (Ascii.eqb c ":"%char) && no_colon s'
  end.

End StreamSession.

(** ** ParadexWebSocketClient of services/execution: trades and upkeep *)

Module ExecStream.

(** A trade as the exchange sends it inside a subscription message. *)
Record RawTrade := mkRawTrade {
  raw_price : string;
  raw_size : string;
  raw_side : string;
  raw_timestamp : option Z;
}.

(** The [ParadexTrade] the client emits. *)
Record ParadexTrade := mkTrade {
  market : string;
  price : string;
  size : string;
  side : string;
  timestamp : Z;
}.

Inductive Emitted :=
| EmTrade (trade : ParadexTrade)
| EmOrderbook (market : string)
| EmChannel (channel : option string).

(** [s.replace(pattern, '')] with a string pattern: the first occurrence
    is removed. *)
Fixpoint removeFirst (pattern s : string) : string :=
  if String.prefix pattern s
  then String.substring (String.length pattern)
         (String.length s - String.length pattern) s
  else match s with
       | EmptyString => EmptyString
       | String c s' => String c (removeFirst pattern s')
       end.

(** [trade.timestamp || Date.now()]. *)
Definition timestampOr (t : option Z) (now : Z) : Z :=
  match t with
  | Some n => if n =? 0 then now else n
  | None => now
  end.

(** [handleSubscriptionMessage]: [params] may be missing, [channel] may be
    missing or empty, [data] is an array of trades or something else. *)
Definition handleSubscriptionMessage
    (params : option (option string * option (list RawTrade))) (now : Z)
  : list Emitted :=
  match params with
  | None => []
  | Some (channel, data) =>
      let ch := default "" channel in
      (if String.prefix "trades." ch then
         let market := removeFirst "trades." ch in
         match data with
         | Some trades =>
             List.map (fun trade =>
                         EmTrade (mkTrade market (raw_price trade) (raw_size trade)
                                    (raw_side trade)
                                    (timestampOr (raw_timestamp trade) now)))
               trades
         | None => []
         end
       else [])
      ++ (if String.prefix "orderbook." ch
          then [EmOrderbook (removeFirst "orderbook." ch)]
          else [])
      ++ [EmChannel channel]
  end.

(** The channel [subscribeTrades(market)] subscribes to. *)
Definition tradesChannel (market : string) : string := "trades." +:+ market.

(** The trades among the emitted events, as the candle builder takes
    them after its [parseFloat]s. *)
Definition tradesOf (parseFloat : string -> Q) (es : list Emitted)
  : list KlineBuilder.ParadexTrade :=
  omap (fun e => match e with
                 | EmTrade t =>
                     Some (KlineBuilder.mkTrade (market t) (parseFloat (price t))
                             (parseFloat (size t)) (timestamp t))
                 | _ => None
                 end) es.

(** The fields of the client that its reconnection logic reads and
    writes; [reconnectTimeout] holds the delay of the timer whose handle
    the client keeps. *)
Record t := mkClient {
  wsPresent : bool;
  reconnectAttempts : Z;
  isConnected : bool;
  isAuthenticated : bool;
  subscribedChannels : list string;
  pingInterval : bool;
  reconnectTimeout : option Z;
  gaveUp : bool;
}.

Definition maxReconnectAttempts : Z := 10.
Definition reconnectDelay : Z := 1000.

(** [handleReconnect]; [gaveUp] records the [max_reconnect_attempts]
    event.  The callback of the timer it sets is the event [TimerFired]
    below, the [catch] of that callback the event [ConnectRejected]. *)
Definition handleReconnect (s : t) : t :=
  if reconnectAttempts s >=? maxReconnectAttempts then
    {| wsPresent := wsPresent s; reconnectAttempts := reconnectAttempts s;
       isConnected := isConnected s; isAuthenticated := isAuthenticated s;
       subscribedChannels := subscribedChannels s; pingInterval := pingInterval s;
       reconnectTimeout := reconnectTimeout s; gaveUp := true |}
  else
    let attempts := reconnectAttempts s + 1 in
    let delay := reconnectDelay * 2 ^ (attempts - 1) in
    {| wsPresent := wsPresent s; reconnectAttempts := attempts;
       isConnected := isConnected s; isAuthenticated := isAuthenticated s;
       subscribedChannels := subscribedChannels s; pingInterval := pingInterval s;
       reconnectTimeout := Some delay; gaveUp := gaveUp s |}.

(** The handler of the socket's [close] event. *)
Definition onClose (s : t) : t :=
  handleReconnect
    {| wsPresent := wsPresent s; reconnectAttempts := reconnectAttempts s;
       isConnected := false; isAuthenticated := false;
       subscribedChannels := subscribedChannels s; pingInterval := false;
       reconnectTimeout := reconnectTimeout s; gaveUp := gaveUp s |}.

Definition disconnect (s : t) : t :=
  {| wsPresent := false; reconnectAttempts := reconnectAttempts s;
     isConnected := false; isAuthenticated := false;
     subscribedChannels := []; pingInterval := false;
     reconnectTimeout := None; gaveUp := gaveUp s |}.

(** [connect()] up to the creation of the socket. *)
Definition connect (s : t) : t :=
  {| wsPresent := true; reconnectAttempts := reconnectAttempts s;
     isConnected := isConnected s; isAuthenticated := isAuthenticated s;
     subscribedChannels := subscribedChannels s; pingInterval := pingInterval s;
     reconnectTimeout := reconnectTimeout s; gaveUp := gaveUp s |}.

(** What runs on the client while no socket opens: the [close] event of
    a socket; a reconnect timer, whose callback calls [connect()]; and the
    rejection of that [connect()], by its timeout of 10 s, whose [catch]
    calls [handleReconnect] again. *)
Inductive event :=
| Closed
| TimerFired
| ConnectRejected.

Definition step (s : t) (e : event) : t :=
  match e with
  | Closed => onClose s
  | TimerFired => connect s
  | ConnectRejected => handleReconnect s
  end.

Definition run (s : t) (es : list event) : t := fold_left step es s.

(** The event calls [handleReconnect]. *)
Definition reconnects (e : event) : bool :=
  match e with
  | Closed | ConnectRejected => true
  | TimerFired => false
  end.

(** The number of calls of [handleReconnect] in a run. *)
Definition reconnectCalls (es : list event) : Z :=
  Z.of_nat (length (List.filter reconnects es)).

End ExecStream.

(** * Properties *)

(** ** The symbol mapping *)

Module SymbolMapperSpec.
Import SymbolMapper.

Lemma length_append (s1 s2 : string) :
  String.length (s1 +:+ s2) = (String.length s1 + String.length s2)%nat.
Proof. induction s1 as [|c s1 IH]; simpl; [reflexivity | f_equal; exact IH]. Qed.

Lemma eqb_longer_false (c : ascii) (s : string) :
  String.eqb (String c (s +:+ "USDT")) "USDT" = false.
Proof.
  destruct (String.eqb (String c (s +:+ "USDT")) "USDT") eqn:E; [|done].
  apply String.eqb_eq in E.
  apply (f_equal String.length) in E.
  cbn in E. rewrite length_append in E. cbn in E. lia.
Qed.

Lemma strip_USDT_suffix (base : string) :
  strip_USDT (base +:+ "USDT") = base.
Proof.
  induction base as [|c base IH]; [done|].
  change (String c base +:+ "USDT") with (String c (base +:+ "USDT")).
  cbn [strip_USDT]. rewrite eqb_longer_false. by rewrite IH.
Qed.

Lemma split_dash_0_prefix (base rest : string) :
  no_dash base = true ->
  split_dash_0 (base +:+ String "-"%char rest) = base.
Proof.
  induction base as [|c base IH]; intros Hd; [done|].
  simpl in Hd. apply andb_true_iff in Hd as [Hc Hd].
  simpl. destruct (Ascii.eqb c "-"%char); [discriminate Hc|].
  f_equal. by apply IH.
Qed.

(** C10: a symbol BASE+"USDT" whose BASE is non-empty and has no dash
    survives the trip to the Paradex market name and back. *)
Theorem C10_symbol_roundtrip (base : string) :
  base <> "" ->
  no_dash base = true ->
  fromParadex (toParadex (base +:+ "USDT")) = base +:+ "USDT".
Proof.
  intros _ Hd. unfold fromParadex, toParadex.
  rewrite strip_USDT_suffix.
  change "-USD-PERP" with (String "-"%char "USD-PERP").
  by rewrite split_dash_0_prefix.
Qed.

Lemma C10_symbol_roundtrip_witness :
  "ETH" <> "" /\ no_dash "ETH" = true
  /\ toParadex "ETHUSDT" = "ETH-USD-PERP"
  /\ fromParadex (toParadex ("ETH" +:+ "USDT")) = "ETH" +:+ "USDT".
Proof.
  split; [discriminate|]. split; [reflexivity|]. split; [reflexivity|].
  apply (C10_symbol_roundtrip "ETH"); [discriminate | reflexivity].
Defined.

End SymbolMapperSpec.

(** ** The candle aggregator *)

Module KlineSpec.
Import KlineBuilder.

Lemma gtb_lt (a b : Z) : (a >? b) = true <-> b < a.
Proof. rewrite Z.gtb_ltb. apply Z.ltb_lt. Qed.

Lemma push_limited_length (maxK : Z) (h : list Kline) (k : Kline) :
  0 <= maxK ->
  Z.of_nat (length h) <= maxK ->
  Z.of_nat (length (push_limited maxK h k)) <= maxK.
Proof.
  intros H0 Hh. unfold push_limited.
  destruct (Z.of_nat (length (h ++ [k])) >? maxK) eqn:E.
  - destruct h as [|x h]; simpl in *; [lia|].
    rewrite length_app. simpl. rewrite length_app in E. simpl in E. lia.
  - destruct (gtb_lt (Z.of_nat (length (h ++ [k]))) maxK) as [_ Hlt].
    destruct (Z.lt_ge_cases maxK (Z.of_nat (length (h ++ [k])))) as [Hc|Hc]; [|lia].
    rewrite (Hlt Hc) in E. discriminate.
Qed.

Lemma push_limited_full (maxK : Z) (oldest : Kline) (rest : list Kline) (k : Kline) :
  Z.of_nat (length (oldest :: rest)) = maxK ->
  push_limited maxK (oldest :: rest) k = rest ++ [k].
Proof.
  intros Hlen. unfold push_limited.
  assert (Hgt : (Z.of_nat (length ((oldest :: rest) ++ [k])) >? maxK) = true).
  { apply gtb_lt. rewrite length_app. simpl in *. lia. }
  by rewrite Hgt.
Qed.

Lemma push_limited_elem (maxK : Z) (h : list Kline) (k x : Kline) :
  x ∈ push_limited maxK h k -> x ∈ h \/ x = k.
Proof.
  unfold push_limited. intros Hx.
  assert (Hin : x ∈ h ++ [k]).
  { destruct (_ >? _); [|done].
    destruct (h ++ [k]) as [|y l]; simpl in Hx; [done|]. by apply elem_of_cons; right. }
  apply elem_of_app in Hin as [?|Hin]; [by left|].
  right. by apply list_elem_of_singleton in Hin.
Qed.

Lemma history_closeKline (b : t) (m : string) (k : Kline) :
  history (closeKline b m k) m = push_limited (maxKlines b) (history b m) k.
Proof. unfold history, closeKline. simpl. by rewrite lookup_insert_eq. Qed.

Lemma closeKline_bounded (b : t) (m : string) (k : Kline) :
  0 <= maxKlines b -> bounded b -> bounded (closeKline b m k).
Proof.
  intros H0 Hb m' l. unfold closeKline. simpl.
  destruct (decide (m = m')) as [->|Hne].
  - rewrite lookup_insert_eq. intros [= <-].
    apply push_limited_length; [done|].
    destruct (klines b !! m') as [l'|] eqn:E; simpl; [by eapply Hb | lia].
  - rewrite lookup_insert_ne by done. apply Hb.
Qed.

Lemma processTrade_maxKlines (b : t) (trade : ParadexTrade) :
  maxKlines (processTrade b trade) = maxKlines b.
Proof.
  unfold processTrade.
  destruct (currentKline b !! market trade); [|done].
  by destruct (negb _).
Qed.

Lemma processTrade_bounded (b : t) (trade : ParadexTrade) :
  0 <= maxKlines b -> bounded b -> bounded (processTrade b trade).
Proof.
  intros H0 Hb. unfold processTrade.
  destruct (currentKline b !! market trade) as [cur|]; [|exact Hb].
  destruct (negb _); [|exact Hb].
  apply (closeKline_bounded b (market trade) cur H0 Hb).
Qed.

Lemma run_op_maxKlines (b : t) (o : op) : maxKlines (run_op b o) = maxKlines b.
Proof. destruct o; simpl; [apply processTrade_maxKlines | done | done]. Qed.

Lemma run_op_bounded (b : t) (o : op) :
  0 <= maxKlines b -> bounded b -> bounded (run_op b o).
Proof.
  intros H0 Hb. destruct o as [trade|m|]; simpl.
  - by apply processTrade_bounded.
  - intros m' l. unfold clearMarket. simpl. intros Hl.
    apply lookup_delete_Some in Hl as [_ Hl]. by eapply Hb.
  - intros m' l. unfold clearAll. simpl. by rewrite lookup_empty.
Qed.

Lemma run_bounded (ops : list op) (b : t) :
  0 <= maxKlines b -> bounded b ->
  bounded (run b ops) /\ maxKlines (run b ops) = maxKlines b.
Proof.
  revert b. induction ops as [|o ops IH]; intros b H0 Hb; [done|].
  simpl. destruct (IH (run_op b o)) as [Hb' Hm].
  - by rewrite run_op_maxKlines.
  - by apply run_op_bounded.
  - split; [done|]. by rewrite Hm, run_op_maxKlines.
Qed.

Lemma run_ingest (trades : list ParadexTrade) (b : t) :
  run b (map ProcessTrade trades) = ingest b trades.
Proof.
  revert b. induction trades as [|tr trades IH]; intros b; [done|].
  simpl. apply IH.
Qed.

Lemma new_bounded (interval : string) (maxK : Z) : bounded (new interval maxK).
Proof. intros m l. unfold new. simpl. by rewrite lookup_empty. Qed.

(** What a trade in a bucket other than the open candle's does. *)
Lemma processTrade_other_bucket (b : t) (trade : ParadexTrade) (cur : Kline) :
  currentKline b !! market trade = Some cur ->
  openTime cur <> getKlineStartTime b (timestamp trade) ->
  currentKline (processTrade b trade) !! market trade
    = Some (startKline b (getKlineStartTime b (timestamp trade)) trade)
  /\ history (processTrade b trade) (market trade)
    = push_limited (maxKlines b) (history b (market trade)) cur
  /\ (forall m, m <> market trade ->
        history (processTrade b trade) m = history b m
        /\ currentKline (processTrade b trade) !! m = currentKline b !! m).
Proof.
  intros Hcur Hne. unfold processTrade. rewrite Hcur.
  assert (E : (openTime cur =? getKlineStartTime b (timestamp trade)) = false)
    by by apply Z.eqb_neq.
  rewrite E. simpl. split; [by rewrite lookup_insert_eq|].
  split.
  - unfold history. simpl. by rewrite lookup_insert_eq.
  - intros m Hm. unfold history. simpl.
    by rewrite !lookup_insert_ne.
Qed.

(** What a trade in the open candle's bucket does. *)
Lemma processTrade_same_bucket (b : t) (trade : ParadexTrade) (cur : Kline) :
  currentKline b !! market trade = Some cur ->
  openTime cur = getKlineStartTime b (timestamp trade) ->
  currentKline (processTrade b trade) !! market trade = Some (updateKline cur trade)
  /\ klines (processTrade b trade) = klines b.
Proof.
  intros Hcur He. unfold processTrade. rewrite Hcur.
  assert (E : (openTime cur =? getKlineStartTime b (timestamp trade)) = true)
    by by apply Z.eqb_eq.
  rewrite E. simpl. by rewrite lookup_insert_eq.
Qed.

(** What the first trade of a market does. *)
Lemma processTrade_first (b : t) (trade : ParadexTrade) :
  currentKline b !! market trade = None ->
  currentKline (processTrade b trade) !! market trade
    = Some (startKline b (getKlineStartTime b (timestamp trade)) trade)
  /\ klines (processTrade b trade) = klines b.
Proof.
  intros Hcur. unfold processTrade. rewrite Hcur. simpl.
  by rewrite lookup_insert_eq.
Qed.

Lemma bucket_floor (b : t) (ts : Z) :
  0 < intervalMs b ->
  getKlineStartTime b ts <= ts < getKlineStartTime b ts + intervalMs b
  /\ getKlineStartTime b ts mod intervalMs b = 0.
Proof.
  intros Hpos. unfold getKlineStartTime.
  pose proof (Z.mul_div_le ts (intervalMs b) Hpos).
  pose proof (Z.mul_succ_div_gt ts (intervalMs b) Hpos).
  split; [lia|]. by apply Z.mod_mul; lia.
Qed.

(** C5: the bucket of a trade is floor(timestamp / intervalMs) * intervalMs;
    a trade in another bucket than the open candle's closes that candle
    and opens one with open = high = low = close = price and volume =
    size; a trade in the open candle's bucket raises high, lowers low,
    sets close and adds its size to the volume.  With 60000 ms candles,
    trades at t=1000 (price 10, size 1) and t=61000 (price 11, size 2)
    leave the closed candle (10, 10, 10, 10, volume 1) and an open candle
    with open 11 and volume 2. *)
Theorem C5_trade_bucketing :
  (forall (b : t) (trade : ParadexTrade),
      0 < intervalMs b ->
      let start := getKlineStartTime b (timestamp trade) in
      let b' := processTrade b trade in
      start = timestamp trade / intervalMs b * intervalMs b
      /\ start <= timestamp trade < start + intervalMs b
      /\ start mod intervalMs b = 0
      /\ match currentKline b !! market trade with
         | Some cur =>
             (openTime cur <> start ->
              getCurrentKline b' (market trade)
                = Some (mkKline start (price trade) (price trade) (price trade)
                          (price trade) (size trade) (start + intervalMs b - 1))
              /\ history b' (market trade)
                 = push_limited (maxKlines b) (history b (market trade)) cur)
             /\ (openTime cur = start ->
                 getCurrentKline b' (market trade)
                   = Some (mkKline (openTime cur) (open cur)
                             (Qmax (high cur) (price trade))
                             (Qmin (low cur) (price trade))
                             (price trade)
                             (volume cur + size trade)%Q
                             (closeTime cur))
                 /\ klines b' = klines b)
         | None =>
             getCurrentKline b' (market trade)
               = Some (mkKline start (price trade) (price trade) (price trade)
                         (price trade) (size trade) (start + intervalMs b - 1))
             /\ klines b' = klines b
         end)
  /\ (let b2 := ingest (new "1m" 100) [mkTrade btc 10 1 1000; mkTrade btc 11 2 61000] in
      intervalMs b2 = 60000
      /\ history b2 btc = [mkKline 0 10 10 10 10 1 59999]
      /\ getCurrentKline b2 btc = Some (mkKline 60000 11 11 11 11 2 119999)).
Proof.
  split.
  - intros b trade Hpos start b'.
    destruct (bucket_floor b (timestamp trade) Hpos) as [Hr Hm].
    split; [done|]. split; [exact Hr|]. split; [exact Hm|].
    destruct (currentKline b !! market trade) as [cur|] eqn:Hcur.
    + split.
      * intros Hne.
        destruct (processTrade_other_bucket b trade cur Hcur Hne) as (Hc & Hh & _).
        split; [exact Hc | exact Hh].
      * intros He. exact (processTrade_same_bucket b trade cur Hcur He).
    + exact (processTrade_first b trade Hcur).
  - vm_compute. repeat split; reflexivity.
Qed.

Lemma C5_trade_bucketing_witness :
  let b := ingest (new "1m" 100) [mkTrade btc 10 1 1000] in
  0 < intervalMs b
  /\ getKlineStartTime b 59999 = 0
  /\ getCurrentKline (processTrade b (mkTrade btc 12 3 59999)) btc
     = Some (mkKline 0 10 (Qmax 10 12) (Qmin 10 12) 12 (1 + 3)%Q 59999).
Proof.
  set (b := ingest (new "1m" 100) [mkTrade btc 10 1 1000]).
  assert (Hpos : 0 < intervalMs b) by (vm_compute; reflexivity).
  split; [exact Hpos|]. split; [vm_compute; reflexivity|].
  pose proof (proj1 C5_trade_bucketing b (mkTrade btc 12 3 59999) Hpos) as H.
  cbv zeta in H. destruct H as (_ & _ & _ & H).
  assert (Hcur : currentKline b !! market (mkTrade btc 12 3 59999)
                 = Some (mkKline 0 10 10 10 10 1 59999))
    by (vm_compute; reflexivity).
  rewrite Hcur in H. destruct H as [_ H].
  destruct H as [H _]; [vm_compute; reflexivity|]. exact H.
Defined.

(** C4, as the specification states it, fails: a late trade is not folded
    into the open candle.  After a trade at t=61000 opened the candle of
    bucket 60000, a trade at t=1000 leaves an open candle of bucket 0. *)
Lemma C4_late_trade_counterexample :
  ~ (forall (b : t) (trade : ParadexTrade) (cur : Kline),
        currentKline b !! market trade = Some cur ->
        getKlineStartTime b (timestamp trade) < openTime cur ->
        exists k, getCurrentKline (processTrade b trade) (market trade) = Some k
                  /\ openTime k = openTime cur).
Proof.
  intros H.
  set (b := ingest (new "1m" 100) [mkTrade btc 11 2 61000]).
  set (late := mkTrade btc 10 1 1000).
  assert (Hcur : currentKline b !! market late
                 = Some (mkKline 60000 11 11 11 11 2 119999))
    by (vm_compute; reflexivity).
  destruct (H b late _ Hcur) as (k & Hk & Ho); [vm_compute; reflexivity|].
  vm_compute in Hk. injection Hk as <-. vm_compute in Ho. discriminate Ho.
Qed.

(** C4, amended: a trade whose bucket is older than the open candle's
    closes the open candle, which is appended to the bounded history as
    it is, and opens a new candle at the older bucket; every candle of
    the history afterwards is an unchanged candle of the history before
    or the candle just closed, and other markets are untouched. *)
Theorem C4_late_trade_starts_new_candle (b : t) (trade : ParadexTrade) (cur : Kline) :
  currentKline b !! market trade = Some cur ->
  getKlineStartTime b (timestamp trade) < openTime cur ->
  let start := getKlineStartTime b (timestamp trade) in
  let b' := processTrade b trade in
  getCurrentKline b' (market trade)
    = Some (mkKline start (price trade) (price trade) (price trade) (price trade)
              (size trade) (start + intervalMs b - 1))
  /\ history b' (market trade) = push_limited (maxKlines b) (history b (market trade)) cur
  /\ (forall k, k ∈ history b' (market trade) -> k ∈ history b (market trade) \/ k = cur)
  /\ (forall m, m <> market trade ->
        history b' m = history b m /\ getCurrentKline b' m = getCurrentKline b m).
Proof.
  intros Hcur Hlate start b'.
  assert (Hne : openTime cur <> start) by (unfold start; lia).
  destruct (processTrade_other_bucket b trade cur Hcur Hne) as (Hc & Hh & Ho).
  split; [exact Hc|]. split; [exact Hh|]. split; [|exact Ho].
  intros k Hk. fold b' in Hh. rewrite Hh in Hk.
  by apply push_limited_elem in Hk.
Qed.

Lemma C4_late_trade_starts_new_candle_witness :
  let b := ingest (new "1m" 100) [mkTrade btc 11 2 61000] in
  let b' := processTrade b (mkTrade btc 10 1 1000) in
  getCurrentKline b' btc = Some (mkKline 0 10 10 10 10 1 59999)
  /\ history b' btc = push_limited 100 (history b btc) (mkKline 60000 11 11 11 11 2 119999).
Proof.
  set (b := ingest (new "1m" 100) [mkTrade btc 11 2 61000]).
  assert (Hcur : currentKline b !! market (mkTrade btc 10 1 1000)
                 = Some (mkKline 60000 11 11 11 11 2 119999))
    by (vm_compute; reflexivity).
  assert (Hlate : getKlineStartTime b (timestamp (mkTrade btc 10 1 1000))
                  < openTime (mkKline 60000 11 11 11 11 2 119999))
    by (vm_compute; reflexivity).
  destruct (C4_late_trade_starts_new_candle b (mkTrade btc 10 1 1000) _ Hcur Hlate)
    as (Hc & Hh & _).
  split; [exact Hc | exact Hh].
Defined.

(** C7: for a capacity maxKlines >= 0, the closed history of every market
    never holds more than maxKlines candles, whatever sequence of trades
    (and clears) the builder has processed; and closing a candle when the
    history is full drops exactly its oldest candle and appends the
    closed one at the end. *)
Theorem C7_history_bounded_fifo (interval : string) (maxK : Z) :
  0 <= maxK ->
  (forall (ops : list op) (m : string),
      Z.of_nat (length (history (run (new interval maxK) ops) m)) <= maxK)
  /\ (forall (trades : list ParadexTrade) (m : string),
        Z.of_nat (length (history (ingest (new interval maxK) trades) m)) <= maxK)
  /\ (forall (b : t) (trade : ParadexTrade) (cur oldest : Kline) (rest : list Kline),
        maxKlines b = maxK ->
        currentKline b !! market trade = Some cur ->
        openTime cur <> getKlineStartTime b (timestamp trade) ->
        history b (market trade) = oldest :: rest ->
        Z.of_nat (length (oldest :: rest)) = maxK ->
        history (processTrade b trade) (market trade) = rest ++ [cur]).
Proof.
  intros H0.
  assert (Hrun : forall (ops : list op) (m : string),
             Z.of_nat (length (history (run (new interval maxK) ops) m)) <= maxK).
  { intros ops m.
    destruct (run_bounded ops (new interval maxK) H0 (new_bounded interval maxK))
      as [Hb Hm].
    unfold history.
    destruct (klines (run (new interval maxK) ops) !! m) as [l|] eqn:E; simpl.
    - apply Hb in E. by rewrite Hm in E.
    - exact H0. }
  split; [exact Hrun|]. split.
  - intros trades m. specialize (Hrun (map ProcessTrade trades) m).
    by rewrite run_ingest in Hrun.
  - intros b trade cur oldest rest Hmax Hcur Hne Hh Hlen.
    destruct (processTrade_other_bucket b trade cur Hcur Hne) as (_ & Hh' & _).
    rewrite Hh', Hh, Hmax. by apply push_limited_full.
Qed.

Lemma C7_history_bounded_fifo_witness :
  0 <= 2
  /\ (let trades := [mkTrade btc 10 1 1000; mkTrade btc 11 2 61000;
                     mkTrade btc 12 1 121000; mkTrade btc 13 1 181000] in
      Z.of_nat (length (history (ingest (new "1m" 2) trades) btc)) <= 2
      /\ history (ingest (new "1m" 2) trades) btc
         = [mkKline 60000 11 11 11 11 2 119999; mkKline 120000 12 12 12 12 1 179999]).
Proof.
  split; [lia|]. cbv zeta. split.
  - apply (C7_history_bounded_fifo "1m" 2); lia.
  - vm_compute. reflexivity.
Defined.

End KlineSpec.

(** ** The retry loop of the signed client *)

Module SignedRestSpec.
Import SignedRest.

Lemma attemptOnce_continue (o : FetchOutcome) (attempt retries : Z) :
  attemptOnce o attempt retries = None <->
  attempt < retries /\ (httpError o = true \/ networkFailure o = true).
Proof.
  unfold attemptOnce, onCatch.
  destruct o as [e|[|] status [e|body]]; simpl;
    destruct (Z.ltb_spec attempt retries);
    try destruct (isNetworkError _); simpl;
    intuition (try discriminate; try lia).
Qed.

Lemma requestLoop_spec (net : Z -> FetchOutcome) (retries : Z) (n : nat) :
  forall attempt : Z,
    0 <= attempt <= retries ->
    Z.of_nat n = retries + 1 - attempt ->
    let sent := snd (requestLoop n attempt retries net) in
    attempt < sent <= retries + 1
    /\ (forall k, attempt <= k -> k + 1 < sent ->
          httpError (net k) = true \/ networkFailure (net k) = true)
    /\ (forall k, attempt <= k < sent -> k < retries ->
          httpError (net k) = true \/ networkFailure (net k) = true ->
          k + 1 < sent).
Proof.
  induction n as [|n IH]; intros attempt Ha Hn; [lia|].
  cbn [requestLoop].
  destruct (Z.leb_spec attempt retries) as [_|]; [|lia].
  destruct (attemptOnce (net attempt) attempt retries) as [r|] eqn:E.
  - cbn [snd]. split; [lia|]. split; [intros; lia|].
    intros k Hk Hlt Hretry. assert (k = attempt) as -> by lia.
    assert (attemptOnce (net attempt) attempt retries = None) as E'
      by (apply attemptOnce_continue; done).
    congruence.
  - apply attemptOnce_continue in E as [Hlt Hretry].
    destruct (IH (attempt + 1)) as (Hs & Hback & Hfwd); [lia | lia |].
    split; [lia|]. split.
    + intros k Hk Hsent.
      destruct (decide (k = attempt)) as [->|]; [done|].
      apply Hback; [lia | done].
    + intros k Hk Hkr Hretry'.
      destruct (decide (k = attempt)) as [->|]; [lia|].
      apply Hfwd; [lia | done | done].
Qed.

Lemma placeMarketOrder_fetches (net : Z -> FetchOutcome) :
  snd (placeMarketOrder net) = fetches (request POST "/v1/orders" 3 net).
Proof. unfold placeMarketOrder. by destruct (fst _). Qed.

(** C1, as the specification states it, fails: the first fetch of an
    order placement receives a response with status 500, and a second
    fetch is sent all the same. *)
Lemma C1_order_retry_counterexample :
  ~ (forall (net : Z -> FetchOutcome) (k : Z),
        0 <= k ->
        k + 1 < snd (placeMarketOrder net) ->
        responseReceived (net k) = false).
Proof.
  intros H.
  assert (Hsent : 0 + 1 < snd (placeMarketOrder error_then_ok))
    by (vm_compute; reflexivity).
  specialize (H error_then_ok 0 (Z.le_refl 0) Hsent).
  discriminate H.
Qed.

(** C1, amended: every request, order placement included, sends between 1
    and retries + 1 fetches (4 for an order); a further attempt follows
    attempt k only if k ended in an error response or in an exception
    that counts as a network failure, and while k < retries it always
    follows in both cases. *)
Theorem C1_retry_on_error_response_and_network_failure
    (method : Method) (endpoint : string) (retries : Z) (net : Z -> FetchOutcome) :
  0 <= retries ->
  let sent := fetches (request method endpoint retries net) in
  1 <= sent <= retries + 1
  /\ (forall k, 0 <= k -> k + 1 < sent ->
        httpError (net k) = true \/ networkFailure (net k) = true)
  /\ (forall k, 0 <= k < sent -> k < retries ->
        httpError (net k) = true \/ networkFailure (net k) = true ->
        k + 1 < sent)
  /\ (forall k, 0 <= k < sent ->
        httpError (net k) = false -> networkFailure (net k) = false ->
        sent = k + 1)
  /\ (method = POST -> endpoint = "/v1/orders" -> retries = 3 ->
      snd (placeMarketOrder net) = sent).
Proof.
  intros Hr sent.
  destruct (requestLoop_spec net retries (Z.to_nat (retries + 1)) 0)
    as (Hs & Hback & Hfwd); [lia | lia |].
  fold (request method endpoint retries net) in Hs, Hback, Hfwd.
  split; [unfold sent, fetches; lia|].
  split; [exact Hback|]. split; [exact Hfwd|]. split.
  - intros k Hk Hh Hn.
    destruct (Z.lt_ge_cases (k + 1) sent) as [Hlt|Hge]; [|lia].
    destruct (Hback k (proj1 Hk) Hlt); congruence.
  - intros -> -> ->. apply placeMarketOrder_fetches.
Qed.

Lemma C1_retry_on_error_response_and_network_failure_witness :
  0 <= 3
  /\ snd (placeMarketOrder error_then_ok) = 2
  /\ httpError (error_then_ok 0) = true
  /\ 0 + 1 < fetches (request POST "/v1/orders" 3 error_then_ok).
Proof.
  split; [lia|]. split; [vm_compute; reflexivity|]. split; [reflexivity|].
  destruct (C1_retry_on_error_response_and_network_failure
              POST "/v1/orders" 3 error_then_ok) as (_ & _ & Hfwd & _ & _); [lia|].
  apply Hfwd; [vm_compute; split; [discriminate | reflexivity] | lia | by left].
Defined.

End SignedRestSpec.

(** ** The JWT cache *)

Module JwtSpec.
Import JwtRest.

Lemma getJWT_begin_cache (c : t) (now now' : Z) :
  cacheValid (fst (getJWT_begin c now)) now' = cacheValid c now'.
Proof. unfold getJWT_begin. by destruct (cacheValid c now). Qed.

Lemma step_call_stale (c : t) (now : Z) :
  cacheValid c now = false ->
  step c (AuthenticatedCall now)
  = mkClient (jwtToken c) (jwtExpiry c) (refreshLog c ++ [now]) (S (inFlight c)).
Proof. intros H. simpl. unfold getJWT_begin. by rewrite H. Qed.

Lemma step_call_fresh (c : t) (now : Z) :
  cacheValid c now = true -> step c (AuthenticatedCall now) = c.
Proof. intros H. simpl. unfold getJWT_begin. by rewrite H. Qed.

Lemma run_calls_stale (nows : list Z) (c : t) :
  Forall (fun now => cacheValid c now = false) nows ->
  run c (map AuthenticatedCall nows)
  = mkClient (jwtToken c) (jwtExpiry c) (refreshLog c ++ nows)
      (length nows + inFlight c).
Proof.
  revert c. induction nows as [|now nows IH]; intros c Hall.
  - simpl. rewrite app_nil_r. by destruct c.
  - apply Forall_cons in Hall as [Hnow Hall].
    cbn [map run fold_left]. fold (run (step c (AuthenticatedCall now))
                                     (map AuthenticatedCall nows)).
    rewrite IH.
    + rewrite step_call_stale by done. simpl.
      rewrite <- app_assoc. simpl. f_equal. lia.
    + eapply Forall_impl; [exact Hall|]. intros now' H'. simpl.
      by rewrite getJWT_begin_cache.
Qed.

(** C6, as the specification states it, fails: two authenticated calls
    that start before any refresh response has arrived leave two refresh
    requests in flight. *)
Lemma C6_two_refreshes_counterexample :
  ~ (forall es : list event, (inFlight (run new es) <= 1)%nat).
Proof.
  intros H.
  specialize (H [AuthenticatedCall 1000; AuthenticatedCall 1001]).
  vm_compute in H. lia.
Qed.

(** C6, amended: an authenticated call that finds the token absent or
    within 60 s of its expiry sends a refresh request of its own, so n
    such calls that start before any response arrives put n refresh
    requests in flight; a call that finds a token more than 60 s from
    its expiry sends none, and a successful refresh response stores the
    token that later calls reuse. *)
Theorem C6_each_stale_call_refreshes (c : t) (nows : list Z) :
  Forall (fun now => cacheValid c now = false) nows ->
  inFlight (run c (map AuthenticatedCall nows)) = (length nows + inFlight c)%nat
  /\ refreshLog (run c (map AuthenticatedCall nows)) = refreshLog c ++ nows
  /\ (forall now, cacheValid c now = true ->
        step c (AuthenticatedCall now) = c)
  /\ (forall d now, (0 < inFlight c)%nat -> jwt d <> "" -> expires_at d <> 0 ->
        now < expires_at d - 60000 ->
        let c' := step c (RefreshResponse (mkJwtResponse true (Some d))) in
        cacheValid c' now = true
        /\ refreshLog (step c' (AuthenticatedCall now)) = refreshLog c).
Proof.
  intros Hall. rewrite run_calls_stale by done.
  split; [done|]. split; [done|]. split; [apply step_call_fresh|].
  intros d now Hin Hj He Hnow c'.
  assert (Hv : cacheValid c' now = true).
  { unfold c'. simpl. destruct (inFlight c) as [|n]; [lia|].
    unfold cacheValid. simpl.
    apply andb_true_iff. split; [apply andb_true_iff; split|].
    - apply negb_true_iff. by apply String.eqb_neq.
    - apply negb_true_iff. by apply Z.eqb_neq.
    - by apply Z.ltb_lt. }
  split; [exact Hv|]. rewrite step_call_fresh by done.
  unfold c'. simpl. by destruct (inFlight c).
Qed.

Lemma C6_each_stale_call_refreshes_witness :
  Forall (fun now => cacheValid new now = false) [1000; 1001]
  /\ inFlight (run new (map AuthenticatedCall [1000; 1001])) = 2%nat.
Proof.
  assert (H : Forall (fun now => cacheValid new now = false) [1000; 1001])
    by (repeat constructor).
  split; [exact H|].
  exact (proj1 (C6_each_stale_call_refreshes new [1000; 1001] H)).
Defined.

End JwtSpec.

(** ** The position-risk monitor *)

Module AgentSpec.
Import Agent.

Lemma closePosition_fields (s : State) (ref : nat) (p : Position) (reason : string) :
  orders (closePosition s ref p reason) = orders s ++ [closeCall p]
  /\ awaiting (closePosition s ref p reason) !! length (orders s) = Some (ref, reason)
  /\ positions (closePosition s ref p reason) = positions s
  /\ heap (closePosition s ref p reason) = heap s
  /\ config (closePosition s ref p reason) = config s.
Proof. unfold closePosition. simpl. by rewrite lookup_insert_eq. Qed.

Lemma check_cases (s : State) (ref : nat) (p : Position) (now : Z) :
  checkPositionExitConditions s ref p now = s
  \/ exists reason, checkPositionExitConditions s ref p now = closePosition s ref p reason.
Proof.
  unfold checkPositionExitConditions.
  destruct (Js.le _ _); [right; eauto|].
  destruct (Js.ge _ _); [right; eauto|].
  destruct (Js.ge _ _); [right; eauto | by left].
Qed.

Lemma check_fields (s : State) (ref : nat) (p : Position) (now : Z) :
  positions (checkPositionExitConditions s ref p now) = positions s
  /\ heap (checkPositionExitConditions s ref p now) = heap s
  /\ config (checkPositionExitConditions s ref p now) = config s.
Proof.
  destruct (check_cases s ref p now) as [->|[reason ->]]; [done|].
  by destruct (closePosition_fields s ref p reason) as (_ & _ & ? & ? & ?).
Qed.

Lemma check_due (s : State) (ref : nat) (p : Position) (price : Q) (now : Z) :
  exitDue (config s) p price now = true ->
  exists reason,
    checkPositionExitConditions s ref (reprice p price now) now
    = closePosition s ref (reprice p price now) reason.
Proof.
  unfold exitDue, checkPositionExitConditions. intros H.
  destruct (Js.le _ _); [eauto|].
  destruct (Js.ge (unrealizedROE _) _); [eauto|].
  simpl in H. change (openedAt (reprice p price now)) with (openedAt p).
  rewrite H. eauto.
Qed.

Lemma ticker_fields (s : State) (m : string) (price : Q) (ts now : Z) :
  positions (step s (Ticker m price ts now)) = positions s
  /\ config (step s (Ticker m price ts now)) = config s
  /\ length (heap (step s (Ticker m price ts now))) = length (heap s).
Proof.
  simpl. unfold handleTickerUpdate, updatePositionPrices. simpl.
  destruct (positions s !! m) as [ref|]; [|done].
  destruct (heap s !! ref) as [p|]; [|done].
  match goal with
  | |- context [checkPositionExitConditions ?s0 ?r ?p0 ?n] =>
      destruct (check_fields s0 r p0 n) as (-> & -> & ->)
  end.
  simpl. by rewrite length_insert.
Qed.

Lemma ticker_due (s : State) (m : string) (ref : nat) (p : Position)
    (price : Q) (ts now : Z) :
  positions s !! m = Some ref ->
  heap s !! ref = Some p ->
  exitDue (config s) p price now = true ->
  orders (step s (Ticker m price ts now)) = orders s ++ [closeCall p]
  /\ heap (step s (Ticker m price ts now)) !! ref = Some (reprice p price now).
Proof.
  intros Hm Hp Hdue. simpl. unfold handleTickerUpdate, updatePositionPrices.
  simpl. rewrite Hm, Hp.
  match goal with
  | |- context [checkPositionExitConditions ?s0 ?r _ ?n] =>
      destruct (check_due s0 r p price n Hdue) as [reason ->]
  end.
  unfold closePosition. simpl. split; [done|].
  apply list_lookup_insert_eq. by eapply lookup_lt_Some.
Qed.

Lemma ticker_evaluates (s : State) (m : string) (ref : nat) (p : Position)
    (price : Q) (ts now : Z) :
  positions s !! m = Some ref ->
  heap s !! ref = Some p ->
  exists s1,
    step s (Ticker m price ts now)
    = checkPositionExitConditions s1 ref (reprice p price now) now
    /\ orders s1 = orders s /\ config s1 = config s
    /\ heap s1 !! ref = Some (reprice p price now).
Proof.
  intros Hm Hp. simpl. unfold handleTickerUpdate, updatePositionPrices.
  simpl. rewrite Hm, Hp. eexists. split; [reflexivity|]. simpl.
  split; [done|]. split; [done|].
  apply list_lookup_insert_eq. by eapply lookup_lt_Some.
Qed.

Lemma run_tickers_due (m : string) (ref : nat) (ticks : list (Q * Z * Z)) :
  forall (s : State) (p : Position),
    positions s !! m = Some ref ->
    heap s !! ref = Some p ->
    Forall (fun t => exitDue (config s) p t.1.1 t.2 = true) ticks ->
    orders (run s (map (fun t => Ticker m t.1.1 t.1.2 t.2) ticks))
    = orders s ++ repeat (closeCall p) (length ticks)
    /\ positions (run s (map (fun t => Ticker m t.1.1 t.1.2 t.2) ticks))
       = positions s.
Proof.
  induction ticks as [|[[price ts] now] ticks IH]; intros s p Hm Hp Hall.
  - simpl. by rewrite app_nil_r.
  - apply Forall_cons in Hall as [Hdue Hall]. simpl in Hdue.
    destruct (ticker_due s m ref p price ts now Hm Hp Hdue) as [Ho Hh].
    destruct (ticker_fields s m price ts now) as (Hpos & Hcfg & _).
    cbn [length repeat].
    destruct (IH (step s (Ticker m price ts now)) (reprice p price now))
      as [Ho' Hpos'].
    + by rewrite Hpos.
    + exact Hh.
    + rewrite Hcfg. exact Hall.
    + split.
      * etransitivity; [exact Ho'|]. rewrite Ho, <- app_assoc. reflexivity.
      * etransitivity; [exact Hpos' | exact Hpos].
Qed.

(** *** The extrema of the ROE *)







(** *** What removes a position *)

Lemma storePosition_keeps (s : State) (m m' : string) (p : Position) :
  is_Some (positions s !! m) -> is_Some (positions (storePosition s m' p) !! m).
Proof.
  intros Hm. simpl. destruct (decide (m' = m)) as [->|Hne].
  - rewrite lookup_insert_eq. eauto.
  - by rewrite lookup_insert_ne.
Qed.

Lemma sync_keeps (data : list ParadexPosAPI) (now : Z) (m : string) :
  forall s : State,
    is_Some (positions s !! m) ->
    is_Some (positions (syncPositions_resume s data now) !! m).
Proof.
  induction data as [|a data IH]; intros s Hs; [done|].
  simpl. apply IH.
  destruct (convertPosition s a now); [|done]. by apply storePosition_keeps.
Qed.











(** *** The claims *)




(** C8: a price update for a symbol with a live position reprices the
    position and evaluates the exit conditions once; the evaluation tries
    stop-loss, then take-profit, then the hold time in minutes, and the
    first that holds places the one close order of the evaluation;
    stop-loss wins over take-profit when both hold. *)
Theorem C8_exit_priority (s : State) (ref : nat) (p : Position) (now : Z) :
  let cfg := config s in
  let roe := unrealizedROE p in
  let held := (inject_Z (now - openedAt p) / 60000)%Q in
  let s' := checkPositionExitConditions s ref p now in
  ((roe <= stopLossROE cfg)%Q -> s' = closePosition s ref p "stop_loss")
  /\ (~ (roe <= stopLossROE cfg)%Q -> (takeProfitROE cfg <= roe)%Q ->
      s' = closePosition s ref p "take_profit")
  /\ (~ (roe <= stopLossROE cfg)%Q -> ~ (takeProfitROE cfg <= roe)%Q ->
      (maxHoldTimeMinutes cfg <= held)%Q ->
      s' = closePosition s ref p "max_hold_time")
  /\ (~ (roe <= stopLossROE cfg)%Q -> ~ (takeProfitROE cfg <= roe)%Q ->
      ~ (maxHoldTimeMinutes cfg <= held)%Q ->
      s' = s)
  /\ (exists calls, orders s' = orders s ++ calls /\ (length calls <= 1)%nat)
  /\ (forall reason,
        orders (closePosition s ref p reason) = orders s ++ [closeCall p]
        /\ awaiting (closePosition s ref p reason) !! length (orders s)
           = Some (ref, reason))
  /\ (forall m price ts,
        positions s !! m = Some ref -> heap s !! ref = Some p ->
        exists s1,
          step s (Ticker m price ts now)
          = checkPositionExitConditions s1 ref (reprice p price now) now
          /\ orders s1 = orders s /\ config s1 = config s
          /\ heap s1 !! ref = Some (reprice p price now)).
Proof.
  intros cfg roe held s'. subst s'. unfold checkPositionExitConditions.
  fold cfg. fold roe. fold held. unfold Js.le, Js.ge.
  rewrite <- !Qle_bool_iff.
  destruct (Qle_bool roe (stopLossROE cfg));
    destruct (Qle_bool (takeProfitROE cfg) roe);
    destruct (Qle_bool (maxHoldTimeMinutes cfg) held).
  all: do 4 (split; [intros; try done; try congruence|]).
  all: split; [|split; [intros r; simpl; by rewrite lookup_insert_eq
                       |intros m price ts Hm Hp; by apply ticker_evaluates]].
  all: first [ by (exists [closeCall p]; split; [reflexivity | simpl; lia])
             | by (exists []; split; [by rewrite app_nil_r | simpl; lia]) ].
Qed.

Lemma C8_exit_priority_witness :
  let s := init "agent" "system" (mkConfig 5 3 60) in
  (unrealizedROE bothCrossed <= stopLossROE (config s))%Q
  /\ (takeProfitROE (config s) <= unrealizedROE bothCrossed)%Q
  /\ checkPositionExitConditions s 0 bothCrossed 0
     = closePosition s 0 bothCrossed "stop_loss"
  /\ orders (checkPositionExitConditions s 0 bothCrossed 0) = [closeCall bothCrossed].
Proof.
  cbv zeta.
  assert (Hsl : (unrealizedROE bothCrossed
                 <= stopLossROE (config (init "agent" "system" (mkConfig 5 3 60))))%Q)
    by (vm_compute; discriminate).
  split; [exact Hsl|]. split; [vm_compute; discriminate|].
  pose proof (proj1 (C8_exit_priority (init "agent" "system" (mkConfig 5 3 60)) 0 bothCrossed 0)
                Hsl) as H.
  split; [exact H|]. rewrite H. reflexivity.
Defined.

(** C2, as the specification states it, fails: with the position open
    and no response to any close order processed, two price updates
    below the stop-loss place two close orders for the same position. *)
Lemma C2_second_close_counterexample :
  ~ (forall (s : State) (m : string) (ticks : list (Q * Z * Z)),
        is_Some (livePosition s m) ->
        (length (closeOrdersFor (run s (map (fun t => Ticker m t.1.1 t.1.2 t.2) ticks)) m)
         <= S (length (closeOrdersFor s m)))%nat).
Proof.
  intros H.
  assert (Hlive : is_Some (livePosition opened btc))
    by (eexists; vm_compute; reflexivity).
  specialize (H opened btc [(90%Q, 1, 1); (89%Q, 2, 2)] Hlive).
  vm_compute in H. lia.
Qed.

(** C2, amended: there is no CLOSING state.  As long as no order response
    and no position message is processed in between, every price update
    for the symbol that meets an exit condition places one more close
    order for the position, which stays in the live map; n such updates
    place n close orders. *)
Theorem C2_close_order_per_trigger (s : State) (m : string) (ref : nat) (p : Position)
    (ticks : list (Q * Z * Z)) :
  positions s !! m = Some ref ->
  heap s !! ref = Some p ->
  Forall (fun t => exitDue (config s) p t.1.1 t.2 = true) ticks ->
  orders (run s (map (fun t => Ticker m t.1.1 t.1.2 t.2) ticks))
  = orders s ++ repeat (closeCall p) (length ticks)
  /\ positions (run s (map (fun t => Ticker m t.1.1 t.1.2 t.2) ticks)) !! m = Some ref.
Proof.
  intros Hm Hp Hall.
  destruct (run_tickers_due m ref ticks s p Hm Hp Hall) as [Ho Hpos].
  split; [exact Ho|]. by rewrite Hpos.
Qed.

Lemma C2_close_order_per_trigger_witness :
  positions opened !! btc = Some 0%nat
  /\ orders (run opened [Ticker btc 90 1 1; Ticker btc 89 2 2])
     = [mkCall btc sell 1 true; mkCall btc sell 1 true].
Proof.
  assert (Hm : positions opened !! btc = Some 0%nat) by (vm_compute; reflexivity).
  split; [exact Hm|].
  assert (Hp : heap opened !! 0%nat
               = Some (mkPosition "agent-BTC-USD-PERP-0" "agent" "system" btc long 1 100 100 10 10 0
                         (0 / 10 * 100) (0 / 10 * 100) (0 / 10 * 100) 0 0))
    by (vm_compute; reflexivity).
  assert (Hall : Forall (fun t : Q * Z * Z =>
                           exitDue (config opened)
                             (mkPosition "agent-BTC-USD-PERP-0" "agent" "system" btc long 1 100 100 10 10 0
                                (0 / 10 * 100) (0 / 10 * 100) (0 / 10 * 100) 0 0)
                             t.1.1 t.2 = true)
                        [(90%Q, 1, 1); (89%Q, 2, 2)])
    by (repeat constructor).
  exact (proj1 (C2_close_order_per_trigger opened btc 0 _ _ Hm Hp Hall)).
Defined.




End AgentSpec.

(** * Further properties of the code *)

(** ** The symbol mapping, both ways *)

Module SymbolMapperMore.
Import SymbolMapper.

Lemma no_dash_split_dash_0 (m : string) : no_dash (split_dash_0 m) = true.
Proof.
  induction m as [|c m IH]; [reflexivity|].
  simpl. destruct (Ascii.eqb c "-"%char) eqn:E; [reflexivity|].
  simpl. by rewrite E, IH.
Qed.

Lemma no_dash_strip_USDT (s : string) :
  no_dash s = true -> no_dash (strip_USDT s) = true.
Proof.
  induction s as [|c s IH]; [done|].
  intros Hd. simpl in Hd. apply andb_true_iff in Hd as [Hc Hd].
  cbn [strip_USDT]. destruct (String.eqb (String c s) "USDT"); [reflexivity|].
  simpl. by rewrite Hc, IH.
Qed.

Lemma fromParadex_toParadex (s : string) :
  no_dash s = true ->
  fromParadex (toParadex s) = strip_USDT s +:+ "USDT".
Proof.
  intros Hd. unfold fromParadex, toParadex.
  change "-USD-PERP" with (String "-"%char "USD-PERP").
  by rewrite SymbolMapperSpec.split_dash_0_prefix by by apply no_dash_strip_USDT.
Qed.

(** X1: a market name BASE-REST with a dash-free BASE comes back from the
    internal symbol as BASE-USD-PERP: names of the form BASE-USD-PERP
    survive the trip, any other quote or suffix is replaced. *)
Theorem X1_market_roundtrip (base rest : string) :
  no_dash base = true ->
  fromParadex (base +:+ "-" +:+ rest) = base +:+ "USDT"
  /\ toParadex (fromParadex (base +:+ "-" +:+ rest)) = base +:+ "-USD-PERP"
  /\ toParadex (fromParadex (base +:+ "-USD-PERP")) = base +:+ "-USD-PERP".
Proof.
  intros Hd.
  assert (Hfrom : forall r, fromParadex (base +:+ "-" +:+ r) = base +:+ "USDT").
  { intros r. unfold fromParadex.
    change ("-" +:+ r) with (String "-"%char r).
    by rewrite SymbolMapperSpec.split_dash_0_prefix. }
  split; [apply Hfrom|].
  assert (Hto : forall r,
             toParadex (fromParadex (base +:+ "-" +:+ r)) = base +:+ "-USD-PERP").
  { intros r. rewrite Hfrom. unfold toParadex.
    by rewrite SymbolMapperSpec.strip_USDT_suffix. }
  split; [apply Hto|]. exact (Hto "USD-PERP").
Qed.

Lemma X1_market_roundtrip_witness :
  no_dash "ETH" = true
  /\ toParadex (fromParadex "ETH-USDC-PERP") = "ETH-USD-PERP"
  /\ toParadex (fromParadex "ETH-USD-PERP") = "ETH-USD-PERP".
Proof.
  split; [reflexivity|].
  destruct (X1_market_roundtrip "ETH" "USDC-PERP" eq_refl) as (_ & H1 & H2).
  split; [exact H1 | exact H2].
Defined.

(** X2: for a dash-free symbol the trip to the market name and back
    gives the symbol without a final USDT, followed by USDT; it gives the
    symbol back exactly when the symbol ends in USDT. *)
Theorem X2_symbol_roundtrip_fixed_points (s : string) :
  no_dash s = true ->
  fromParadex (toParadex s) = strip_USDT s +:+ "USDT"
  /\ (fromParadex (toParadex s) = s <-> exists base, s = base +:+ "USDT").
Proof.
  intros Hd. pose proof (fromParadex_toParadex s Hd) as H.
  split; [exact H|]. split.
  - intros Hs. exists (strip_USDT s). by rewrite <- H.
  - intros [base ->]. rewrite H. by rewrite SymbolMapperSpec.strip_USDT_suffix.
Qed.

Lemma X2_symbol_roundtrip_fixed_points_witness :
  no_dash "BTCUSD" = true
  /\ fromParadex (toParadex "BTCUSD") = "BTCUSDUSDT"
  /\ fromParadex (toParadex "BTCUSD") <> "BTCUSD".
Proof.
  split; [reflexivity|].
  destruct (X2_symbol_roundtrip_fixed_points "BTCUSD" eq_refl) as [H _].
  split; [exact H|]. rewrite H. discriminate.
Defined.

(** X3: whatever market name the exchange sends, the internal symbol
    made from it maps to a market that maps back to the same symbol. *)
Theorem X3_fromParadex_stable (market : string) :
  fromParadex (toParadex (fromParadex market)) = fromParadex market.
Proof.
  unfold fromParadex at 2 3.
  rewrite fromParadex_toParadex.
  - by rewrite SymbolMapperSpec.strip_USDT_suffix.
  - assert (H : forall b, no_dash b = true -> no_dash (b +:+ "USDT") = true).
    { intros b. induction b as [|c b IH]; [done|].
      simpl. intros Hb. apply andb_true_iff in Hb as [Hc Hb].
      by rewrite Hc, IH. }
    apply H, no_dash_split_dash_0.
Qed.

End SymbolMapperMore.

(** ** The candles the aggregator holds *)

Module KlineMore.
Import KlineBuilder KlineQueries.

Lemma new_intervalMs_pos (interval : string) (maxK : Z) :
  0 < intervalMs (new interval maxK).
Proof.
  unfold new, INTERVAL_MS. simpl.
  repeat match goal with
         | |- context [String.eqb ?a ?b] => destruct (String.eqb a b)
         end; lia.
Qed.

(** [new] has the [intervalMs] of the constructor whenever that is a
    number. *)
Lemma constructed_intervalMs (interval : string) (maxK ms : Z) :
  constructedIntervalMs interval = Some ms ->
  intervalMs (new interval maxK) = ms.
Proof.
  unfold constructedIntervalMs, new. simpl.
  destruct (INTERVAL_MS interval) as [ms'|]; [by intros [= ->]|].
  destruct (bool_decide _); [discriminate|]. by intros [= <-].
Qed.

Lemma processTrade_intervalMs (b : t) (trade : ParadexTrade) :
  intervalMs (processTrade b trade) = intervalMs b.
Proof.
  unfold processTrade.
  destruct (currentKline b !! market trade); [|done]. by destruct (negb _).
Qed.

(** Where an open candle of the builder after a trade comes from. *)
Lemma processTrade_current (b : t) (trade : ParadexTrade) (m : string) (k : Kline) :
  currentKline (processTrade b trade) !! m = Some k ->
  (m <> market trade /\ currentKline b !! m = Some k)
  \/ (m = market trade
      /\ (k = startKline b (getKlineStartTime b (timestamp trade)) trade
          \/ exists cur, currentKline b !! m = Some cur
                         /\ openTime cur = getKlineStartTime b (timestamp trade)
                         /\ k = updateKline cur trade)).
Proof.
  unfold processTrade.
  destruct (decide (m = market trade)) as [->|Hne].
  - intros H. right. split; [done|].
    destruct (currentKline b !! market trade) as [cur|] eqn:Hcur.
    + destruct (Z.eqb_spec (openTime cur) (getKlineStartTime b (timestamp trade)))
        as [He|Hn]; simpl in H; rewrite lookup_insert_eq in H;
        injection H as <-; [right; eauto | by left].
    + simpl in H. rewrite lookup_insert_eq in H. injection H as <-. by left.
  - intros H. left. split; [done|].
    destruct (currentKline b !! market trade) as [cur|];
      [destruct (negb _)|]; simpl in H; by rewrite lookup_insert_ne in H.
Qed.

(** Where a history of the builder after a trade comes from. *)
Lemma processTrade_klines (b : t) (trade : ParadexTrade) (m : string) (l : list Kline) :
  klines (processTrade b trade) !! m = Some l ->
  klines b !! m = Some l
  \/ (m = market trade
      /\ exists cur, currentKline b !! m = Some cur
                     /\ openTime cur <> getKlineStartTime b (timestamp trade)
                     /\ l = push_limited (maxKlines b) (history b m) cur).
Proof.
  unfold processTrade.
  destruct (currentKline b !! market trade) as [cur|] eqn:Hcur; [|by left].
  destruct (Z.eqb_spec (openTime cur) (getKlineStartTime b (timestamp trade)))
    as [He|Hn]; simpl; [by left|].
  destruct (decide (m = market trade)) as [->|Hne].
  - rewrite lookup_insert_eq. intros [= <-]. right. split; [done|]. eauto.
  - rewrite lookup_insert_ne by done. by left.
Qed.

Lemma startKline_wellFormed (b : t) (trade : ParadexTrade) :
  0 < intervalMs b ->
  wellFormed (intervalMs b)
    (startKline b (getKlineStartTime b (timestamp trade)) trade).
Proof.
  intros Hpos. unfold wellFormed. simpl.
  repeat split; try apply Qle_refl.
  by apply KlineSpec.bucket_floor.
Qed.

Lemma updateKline_wellFormed (i : Z) (k : Kline) (trade : ParadexTrade) :
  wellFormed i k -> wellFormed i (updateKline k trade).
Proof.
  intros (Hlo & Hoh & Hlc & Hch & Hm & Hc). unfold wellFormed. simpl.
  unfold Js.max, Js.min. repeat split; try done.
  - eapply Qle_trans; [apply Q.le_min_l | exact Hlo].
  - eapply Qle_trans; [exact Hoh | apply Q.le_max_l].
  - apply Q.le_min_r.
  - apply Q.le_max_r.
Qed.

Lemma processTrade_allWellFormed (b : t) (trade : ParadexTrade) :
  allWellFormed b -> allWellFormed (processTrade b trade).
Proof.
  intros (Hpos & Hh & Hc). unfold allWellFormed.
  rewrite processTrade_intervalMs. split; [done|]. split.
  - intros m l Hl. apply processTrade_klines in Hl as [Hl|(-> & cur & Hcur & _ & ->)].
    + by eapply Hh.
    + apply Forall_forall. intros k Hk.
      apply KlineSpec.push_limited_elem in Hk as [Hk| ->]; [|by eapply Hc].
      unfold history in Hk.
      destruct (klines b !! market trade) as [l|] eqn:El; simpl in Hk.
      * pose proof (Hh _ _ El) as Hall. rewrite Forall_forall in Hall. by apply Hall.
      * by apply elem_of_nil in Hk.
  - intros m k Hk.
    apply processTrade_current in Hk
      as [[_ Hk]|(-> & [->|(cur & Hcur & _ & ->)])].
    + by eapply Hc.
    + by apply startKline_wellFormed.
    + apply updateKline_wellFormed. by eapply Hc.
Qed.

Lemma run_op_allWellFormed (b : t) (o : op) :
  allWellFormed b -> allWellFormed (run_op b o).
Proof.
  destruct o as [trade|m|]; simpl.
  - apply processTrade_allWellFormed.
  - intros (Hpos & Hh & Hc). split; [done|]. split; simpl.
    + intros m' l Hl. apply lookup_delete_Some in Hl as [_ Hl]. by eapply Hh.
    + intros m' k Hk. apply lookup_delete_Some in Hk as [_ Hk]. by eapply Hc.
  - intros (Hpos & _ & _). split; [done|]. split; simpl; intros ? ?;
      by rewrite lookup_empty.
Qed.

Lemma run_allWellFormed (ops : list op) (b : t) :
  allWellFormed b -> allWellFormed (run b ops).
Proof.
  revert b. induction ops as [|o ops IH]; intros b Hb; [done|].
  simpl. apply IH. by apply run_op_allWellFormed.
Qed.

Lemma run_intervalMs (ops : list op) (b : t) :
  intervalMs (run b ops) = intervalMs b.
Proof.
  revert b. induction ops as [|o ops IH]; intros b; [done|].
  simpl. rewrite IH. destruct o; simpl; [apply processTrade_intervalMs|done|done].
Qed.

Lemma new_allWellFormed (interval : string) (maxK : Z) :
  allWellFormed (new interval maxK).
Proof.
  split; [apply new_intervalMs_pos|].
  split; simpl; intros ? ?; by rewrite lookup_empty.
Qed.

Lemma elem_of_candles (b : t) (m : string) (k : Kline) :
  k ∈ candles b m ->
  (exists l, klines b !! m = Some l /\ k ∈ l) \/ currentKline b !! m = Some k.
Proof.
  unfold candles, history. intros Hk. apply elem_of_app in Hk as [Hk|Hk].
  - left. destruct (klines b !! m) as [l|]; simpl in Hk; [eauto|].
    by apply elem_of_nil in Hk.
  - right. destruct (currentKline b !! m) as [k'|].
    + apply list_elem_of_singleton in Hk. by subst.
    + by apply elem_of_nil in Hk.
Qed.

(** X4: for a builder made with an interval for which the constructor
    finds a number of milliseconds ms (a key of the table, or a string
    that is no property name of an object and so falls back to 5m),
    every candle it holds, closed or open, after any sequence of trades
    and clears, satisfies low <= open <= high and low <= close <= high,
    starts on a multiple of ms and ends at its open time + ms - 1. *)
Theorem X4_candles_well_formed (interval : string) (maxK ms : Z) (ops : list op)
    (m : string) (k : Kline) :
  constructedIntervalMs interval = Some ms ->
  k ∈ candles (run (new interval maxK) ops) m ->
  wellFormed ms k.
Proof.
  intros Hms Hk. rewrite <- (constructed_intervalMs interval maxK ms Hms).
  destruct (run_allWellFormed ops _ (new_allWellFormed interval maxK))
    as (_ & Hh & Hc).
  rewrite run_intervalMs in Hh, Hc.
  apply elem_of_candles in Hk as [(l & Hl & Hk)|Hk].
  - pose proof (Hh _ _ Hl) as Hall. rewrite Forall_forall in Hall. by apply Hall.
  - by eapply Hc.
Qed.

Lemma X4_candles_well_formed_witness :
  let k := mkKline 0 10 12 10 12 4 59999 in
  constructedIntervalMs "1m" = Some 60000
  /\ k ∈ candles (run (new "1m" 100)
                    [ProcessTrade (mkTrade btc 10 1 1000); ProcessTrade (mkTrade btc 12 3 59999)])
           btc
  /\ wellFormed 60000 k.
Proof.
  cbv zeta.
  assert (H : mkKline 0 10 12 10 12 4 59999
              ∈ candles (run (new "1m" 100)
                           [ProcessTrade (mkTrade btc 10 1 1000);
                            ProcessTrade (mkTrade btc 12 3 59999)]) btc).
  { vm_compute. constructor. }
  split; [reflexivity|]. split; [exact H|].
  exact (X4_candles_well_formed "1m" 100 60000 _ btc _ eq_refl H).
Defined.

Lemma processTrade_frame (b : t) (trade : ParadexTrade) (m : string) :
  m <> market trade ->
  history (processTrade b trade) m = history b m
  /\ currentKline (processTrade b trade) !! m = currentKline b !! m.
Proof.
  intros Hne. unfold processTrade, history.
  destruct (currentKline b !! market trade) as [cur|];
    [destruct (negb _)|]; simpl; rewrite ?lookup_insert_ne by done; done.
Qed.

Lemma candles_frame (b : t) (trade : ParadexTrade) (m : string) :
  m <> market trade -> candles (processTrade b trade) m = candles b m.
Proof.
  intros Hne. unfold candles.
  by destruct (processTrade_frame b trade m Hne) as [-> ->].
Qed.

Lemma bucket_ge (b : t) (a ts : Z) :
  0 < intervalMs b -> a mod intervalMs b = 0 -> a <= ts ->
  a <= getKlineStartTime b ts.
Proof.
  intros Hpos Hmod Hle. unfold getKlineStartTime.
  pose proof (Z.div_mod a (intervalMs b)) as Ha.
  pose proof (Z.div_le_mono a ts (intervalMs b) Hpos Hle) as Hd.
  rewrite Hmod in Ha. nia.
Qed.

Lemma increasing_snoc_same (h : list Kline) (a a' : Kline) :
  increasing (h ++ [a]) -> openTime a' = openTime a -> increasing (h ++ [a']).
Proof.
  unfold increasing. rewrite !StronglySorted_app. intros (Hx & Hh & _) He.
  split; [|split; [done|repeat constructor]].
  intros x1 x2 H1 H2. apply list_elem_of_singleton in H2 as ->.
  rewrite He. apply Hx; [done|]. by apply list_elem_of_singleton.
Qed.

Lemma push_limited_suffix (maxK : Z) (h : list Kline) (k : Kline) :
  exists pre, h ++ [k] = pre ++ push_limited maxK h k.
Proof.
  unfold push_limited. destruct (_ >? _); [|by exists []].
  destruct (h ++ [k]) as [|x l]; [by exists []|]. by exists [x].
Qed.

Lemma increasing_push (maxK : Z) (h : list Kline) (cur n : Kline) :
  increasing (h ++ [cur]) -> openTime cur < openTime n ->
  increasing (push_limited maxK h cur ++ [n]).
Proof.
  intros Hinc Hlt. unfold increasing in *.
  destruct (push_limited_suffix maxK h cur) as [pre Hpre].
  apply StronglySorted_app_2.
  - intros x1 x2 H1 H2. apply list_elem_of_singleton in H2 as ->.
    apply KlineSpec.push_limited_elem in H1 as [H1| ->]; [|done].
    assert (Hc : cur ∈ [cur]) by by apply list_elem_of_singleton.
    pose proof (StronglySorted_app_1_elem_of _ h [cur] x1 cur Hinc H1 Hc) as Hx.
    simpl in Hx. lia.
  - rewrite Hpre in Hinc. by eapply StronglySorted_app_1_r.
  - repeat constructor.
Qed.

Lemma processTrade_ordered (b : t) (last : Z) (trade : ParadexTrade) :
  ordered b last -> last <= timestamp trade ->
  ordered (processTrade b trade) (timestamp trade).
Proof.
  intros (Hpos & H) Hle. split; [by rewrite processTrade_intervalMs|].
  rewrite processTrade_intervalMs. intros m.
  destruct (H m) as (Hinc & Hnone & Hcur).
  destruct (decide (m = market trade)) as [->|Hne].
  - destruct (KlineSpec.bucket_floor b (timestamp trade) Hpos) as [[Hb _] Hbm].
    destruct (currentKline b !! market trade) as [cur|] eqn:Ecur.
    + destruct (Hcur cur eq_refl) as [Hcl Hcm].
      destruct (decide (openTime cur = getKlineStartTime b (timestamp trade)))
        as [He|Hn].
      * destruct (KlineSpec.processTrade_same_bucket b trade cur Ecur He) as [Hc Hk].
        unfold candles, history in *. rewrite Hc, Hk, ?Ecur in *.
        split; [by eapply increasing_snoc_same|]. split; [done|].
        intros k [= <-]. simpl. rewrite He. done.
      * destruct (KlineSpec.processTrade_other_bucket b trade cur Ecur Hn)
          as (Hc & Hh & _).
        unfold candles in *. rewrite Hc, Hh, ?Ecur in *.
        assert (openTime cur <= getKlineStartTime b (timestamp trade))
          by (apply bucket_ge; [done|done|lia]).
        split; [apply increasing_push; [done|simpl; lia]|]. split; [done|].
        intros k [= <-]. simpl. done.
    + destruct (KlineSpec.processTrade_first b trade Ecur) as [Hc Hk].
      unfold candles, history in *. rewrite Hc, Hk in *.
      rewrite (Hnone eq_refl). simpl.
      split; [repeat constructor|]. split; [done|].
      intros k [= <-]. simpl. done.
  - rewrite (candles_frame b trade m Hne).
    destruct (processTrade_frame b trade m Hne) as [-> ->].
    split; [done|]. split; [done|].
    intros k Hk. destruct (Hcur k Hk). split; [lia|done].
Qed.

Lemma ingest_ordered (trades : list ParadexTrade) :
  forall (b : t) (last : Z),
    ordered b last -> inOrder last trades ->
    exists last', ordered (ingest b trades) last'.
Proof.
  induction trades as [|trade trades IH]; intros b last Hb Hin; [by exists last|].
  destruct Hin as [Hle Hin]. simpl.
  apply (IH (processTrade b trade) (timestamp trade)); [|done].
  by eapply processTrade_ordered.
Qed.

(** X5: for a builder made with an interval for which the constructor
    finds a number of milliseconds, when the trades arrive in
    non-decreasing timestamp order, the candles of every market (closed
    history, then the open candle) have strictly increasing open times:
    no bucket appears twice and the history never runs backwards. *)
Theorem X5_in_order_trades_give_increasing_candles
    (interval : string) (maxK : Z) (first : Z) (trades : list ParadexTrade) (m : string) :
  is_Some (constructedIntervalMs interval) ->
  inOrder first trades ->
  increasing (candles (ingest (new interval maxK) trades) m).
Proof.
  intros _ Hin.
  assert (Hnew : ordered (new interval maxK) first).
  { split; [apply new_intervalMs_pos|]. intros m'.
    unfold candles, history, new. simpl. rewrite !lookup_empty. simpl.
    split; [constructor|]. split; [done|]. intros k Hk. discriminate Hk. }
  destruct (ingest_ordered trades _ _ Hnew Hin) as (last' & _ & H).
  by destruct (H m) as (Hinc & _).
Qed.

Lemma X5_in_order_trades_give_increasing_candles_witness :
  let trades := [mkTrade btc 10 1 1000; mkTrade btc 11 2 61000; mkTrade btc 12 1 61500] in
  is_Some (constructedIntervalMs "1m")
  /\ inOrder 0 trades
  /\ increasing (candles (ingest (new "1m" 100) trades) btc)
  /\ map openTime (candles (ingest (new "1m" 100) trades) btc) = [0; 60000].
Proof.
  cbv zeta.
  assert (H : inOrder 0 [mkTrade btc 10 1 1000; mkTrade btc 11 2 61000;
                         mkTrade btc 12 1 61500])
    by (simpl; lia).
  assert (Hi : is_Some (constructedIntervalMs "1m")) by (by eexists).
  split; [exact Hi|]. split; [exact H|]. split; [|vm_compute; reflexivity].
  exact (X5_in_order_trades_give_increasing_candles "1m" 100 0 _ btc Hi H).
Defined.

Lemma getKlineStartTime_processTrade (b : t) (trade : ParadexTrade) (ts : Z) :
  getKlineStartTime (processTrade b trade) ts = getKlineStartTime b ts.
Proof. unfold getKlineStartTime. by rewrite processTrade_intervalMs. Qed.

(** Trades that fall into the bucket of the open candle. *)
Lemma ingest_same_bucket (m : string) (trades : list ParadexTrade) :
  forall (b : t) (k0 : Kline),
    currentKline b !! m = Some k0 ->
    Forall (fun tr => market tr = m
                      /\ getKlineStartTime b (timestamp tr) = openTime k0) trades ->
    exists k,
      currentKline (ingest b trades) !! m = Some k
      /\ openTime k = openTime k0 /\ open k = open k0
      /\ (low k <= low k0)%Q /\ (high k0 <= high k)%Q
      /\ Forall (fun tr => (low k <= price tr)%Q /\ (price tr <= high k)%Q) trades
      /\ close k = default (close k0) (last (price <$> trades))
      /\ volume k = fold_left (fun v tr => (v + size tr)%Q) trades (volume k0)
      /\ klines (ingest b trades) = klines b.
Proof.
  induction trades as [|tr trades IH]; intros b k0 Hcur Hall.
  - exists k0. simpl. repeat split; try done; apply Qle_refl.
  - apply Forall_cons in Hall as [[Hm Hb] Hall]. subst m.
    destruct (KlineSpec.processTrade_same_bucket b tr k0 Hcur (eq_sym Hb)) as [Hc Hk].
    destruct (IH (processTrade b tr) (updateKline k0 tr) Hc) as
      (k & Hk' & Hot & Hop & Hlo & Hhi & Hbr & Hcl & Hvol & Hkl).
    { eapply Forall_impl; [exact Hall|]. intros tr' [Hm' Hb'].
      split; [done|]. by rewrite getKlineStartTime_processTrade. }
    exists k. simpl in Hot, Hop, Hlo, Hhi, Hvol. unfold Js.max, Js.min in *.
    split; [exact Hk'|]. split; [done|]. split; [done|].
    split; [eapply Qle_trans; [exact Hlo | apply Q.le_min_l]|].
    split; [eapply Qle_trans; [apply Q.le_max_l | exact Hhi]|].
    split; [constructor; [split|done]|].
    + eapply Qle_trans; [exact Hlo | apply Q.le_min_r].
    + eapply Qle_trans; [apply Q.le_max_r | exact Hhi].
    + split; [|split; [exact Hvol | etransitivity; [exact Hkl | exact Hk]]].
      rewrite Hcl. destruct trades as [|tr' trades']; [done|].
      rewrite !fmap_cons, last_cons_cons.
      destruct (last (price tr' :: (price <$> trades'))) eqn:E; [done|].
      apply last_None in E. discriminate E.
Qed.

(** X6: a run of trades of one market that fall into one bucket, the
    first of which opens the candle, leaves an open candle whose open is
    the first price, whose close is the last price, whose low and high
    bracket every price of the run and whose volume is the sum of the
    sizes; the trades after the first leave the closed history alone. *)
Theorem X6_open_candle_summarises_its_bucket
    (b : t) (m : string) (start : Z) (first : ParadexTrade) (rest : list ParadexTrade) :
  (forall cur, currentKline b !! m = Some cur -> openTime cur <> start) ->
  Forall (fun tr => market tr = m /\ getKlineStartTime b (timestamp tr) = start)
    (first :: rest) ->
  exists k,
    getCurrentKline (ingest b (first :: rest)) m = Some k
    /\ openTime k = start
    /\ open k = price first
    /\ close k = default (price first) (last (price <$> rest))
    /\ Forall (fun tr => (low k <= price tr)%Q /\ (price tr <= high k)%Q) (first :: rest)
    /\ volume k = fold_left (fun v tr => (v + size tr)%Q) rest (size first)
    /\ klines (ingest b (first :: rest)) = klines (processTrade b first).
Proof.
  intros Hfresh Hall. apply Forall_cons in Hall as [[Hm Hb] Hall]. subst m.
  assert (Hc : currentKline (processTrade b first) !! market first
               = Some (startKline b start first)).
  { rewrite <- Hb. destruct (currentKline b !! market first) as [cur|] eqn:Ecur.
    - apply (KlineSpec.processTrade_other_bucket b first cur Ecur).
      rewrite Hb. by apply Hfresh.
    - by apply KlineSpec.processTrade_first. }
  destruct (ingest_same_bucket (market first) rest (processTrade b first) _ Hc)
    as (k & Hk & Hot & Hop & Hlo & Hhi & Hbr & Hcl & Hvol & Hkl).
  { eapply Forall_impl; [exact Hall|]. intros tr [Hm' Hb'].
    split; [done|]. by rewrite getKlineStartTime_processTrade. }
  exists k. simpl in *. repeat split; try done.
  constructor; [split; done | done].
Qed.

Lemma X6_open_candle_summarises_its_bucket_witness :
  exists k,
    getCurrentKline (ingest (new "1m" 100)
                       [mkTrade btc 10 1 1000; mkTrade btc 12 3 2000; mkTrade btc 9 2 59999])
      btc = Some k
    /\ open k = 10%Q /\ close k = 9%Q
    /\ (low k <= 9)%Q /\ (12 <= high k)%Q.
Proof.
  destruct (X6_open_candle_summarises_its_bucket (new "1m" 100) btc 0
              (mkTrade btc 10 1 1000) [mkTrade btc 12 3 2000; mkTrade btc 9 2 59999])
    as (k & Hk & _ & Hop & Hcl & Hbr & _).
  - intros cur Hcur. vm_compute in Hcur. discriminate Hcur.
  - repeat constructor.
  - exists k. split; [exact Hk|]. split; [exact Hop|]. split; [exact Hcl|].
    apply Forall_cons in Hbr as [_ Hbr]. apply Forall_cons in Hbr as [[_ Hhi] Hbr].
    apply Forall_cons in Hbr as [[Hlo _] _]. split; [exact Hlo | exact Hhi].
Defined.

Lemma getKlineCount_candles (b : t) (m : string) :
  getKlineCount b m = Z.of_nat (length (candles b m)).
Proof.
  unfold getKlineCount, candles. rewrite length_app.
  destruct (currentKline b !! m); simpl; lia.
Qed.

Lemma slice_from_last (A : Type) (n : Z) (l : list A) :
  0 < n ->
  (if Z.of_nat (length l) >? n then slice_from (- n) l else l)
  = drop (Z.to_nat (Z.of_nat (length l) - n)) l.
Proof.
  intros Hn. destruct (Z.of_nat (length l) >? n) eqn:E.
  - apply KlineSpec.gtb_lt in E. unfold slice_from.
    destruct (Z.ltb_spec (- n) 0); [|lia].
    f_equal. lia.
  - assert (Z.of_nat (length l) <= n).
    { destruct (Z.lt_ge_cases n (Z.of_nat (length l))) as [Hlt|]; [|lia].
      apply KlineSpec.gtb_lt in Hlt. congruence. }
    replace (Z.to_nat (Z.of_nat (length l) - n)) with 0%nat by lia. done.
Qed.

Lemma getKlines_spec (toString : Q -> string) (b : t) (m : string)
    (limit : option Z) :
  let n := match limit with
           | Some l => if l =? 0 then maxKlines b else l
           | None => maxKlines b
           end in
  (0 < n ->
   getKlines toString b m limit
   = map (row toString) (drop (Z.to_nat (getKlineCount b m - n)) (candles b m))
   /\ Z.of_nat (length (getKlines toString b m limit)) = Z.min n (getKlineCount b m)
   /\ (forall k, currentKline b !! m = Some k ->
         last (getKlines toString b m limit) = Some (row toString k)))
  /\ (n = 0 -> getKlines toString b m limit = map (row toString) (candles b m)).
Proof.
  intros n.
  assert (Hsel : selectKlines b m limit
                 = if Z.of_nat (length (candles b m)) >? n
                   then slice_from (- n) (candles b m) else candles b m) by done.
  split.
  - intros Hn. rewrite slice_from_last in Hsel by done.
    rewrite <- getKlineCount_candles in Hsel.
    unfold getKlines. rewrite Hsel. split; [done|]. split.
    + rewrite length_map, length_drop, getKlineCount_candles. lia.
    + intros k Hk. unfold candles. rewrite Hk.
      rewrite drop_app_le.
      * rewrite map_app. simpl. apply last_snoc.
      * rewrite getKlineCount_candles. unfold candles. rewrite Hk, length_app.
        simpl. lia.
  - intros Hn. unfold getKlines. rewrite Hsel, Hn.
    destruct (_ >? 0); [|done]. unfold slice_from. simpl.
    by rewrite Z.min_l by lia.
Qed.

(** X7: with a positive limit n (the given limit, or maxKlines when it is
    missing or 0) getKlines returns the newest min(n, count) candles in
    order, the open candle last; when that limit is 0 (no limit given and
    maxKlines = 0) it returns every candle. *)
Theorem X7_getKlines_returns_newest (toString : Q -> string) (b : t) (m : string)
    (limit : option Z) :
  let n := match limit with
           | Some l => if l =? 0 then maxKlines b else l
           | None => maxKlines b
           end in
  (0 < n ->
   getKlines toString b m limit
   = map (row toString) (drop (Z.to_nat (getKlineCount b m - n)) (candles b m))
   /\ Z.of_nat (length (getKlines toString b m limit)) = Z.min n (getKlineCount b m)
   /\ (forall k, currentKline b !! m = Some k ->
         last (getKlines toString b m limit) = Some (row toString k)))
  /\ (n = 0 -> getKlines toString b m limit = map (row toString) (candles b m)).
Proof. exact (getKlines_spec toString b m limit). Qed.

Lemma X7_getKlines_returns_newest_witness :
  let b := ingest (new "1m" 2)
             [mkTrade btc 10 1 1000; mkTrade btc 11 2 61000; mkTrade btc 12 1 121000] in
  0 < maxKlines b
  /\ getKlineCount b btc = 3
  /\ Z.of_nat (length (getKlines (fun _ => "") b btc None)) = 2.
Proof.
  set (b := ingest (new "1m" 2)
              [mkTrade btc 10 1 1000; mkTrade btc 11 2 61000; mkTrade btc 12 1 121000]).
  assert (Hn : 0 < maxKlines b) by (vm_compute; reflexivity).
  split; [exact Hn|]. split; [vm_compute; reflexivity|].
  destruct (proj1 (X7_getKlines_returns_newest (fun _ => "") b btc None) Hn)
    as (_ & Hlen & _).
  rewrite Hlen. vm_compute. reflexivity.
Defined.

(** X8: a builder made with capacity maxKlines >= 0 never counts more
    than maxKlines + 1 candles for a market, so hasEnoughData is false for
    every requirement above maxKlines + 1; and getKlines without a limit
    returns at most maxKlines rows when maxKlines > 0. *)
Theorem X8_count_is_capped (toString : Q -> string) (interval : string) (maxK : Z)
    (ops : list op) (m : string) :
  0 <= maxK ->
  let b := run (new interval maxK) ops in
  getKlineCount b m <= maxK + 1
  /\ (forall required, maxK + 1 < required -> hasEnoughData b m required = false)
  /\ (0 < maxK -> Z.of_nat (length (getKlines toString b m None)) <= maxK).
Proof.
  intros H0 b.
  destruct (KlineSpec.run_bounded ops (new interval maxK) H0
              (KlineSpec.new_bounded interval maxK)) as [Hb Hm].
  fold b in Hb, Hm. simpl in Hm.
  assert (Hc : getKlineCount b m <= maxK + 1).
  { unfold getKlineCount, history.
    destruct (klines b !! m) as [l|] eqn:El; simpl.
    - apply Hb in El. rewrite Hm in El. destruct (currentKline b !! m); lia.
    - destruct (currentKline b !! m); lia. }
  split; [exact Hc|]. split.
  - intros required Hr. unfold hasEnoughData.
    destruct (Z.geb_spec (getKlineCount b m) required); [lia|done].
  - intros Hpos.
    destruct (proj1 (getKlines_spec toString b m None)) as (_ & Hlen & _).
    { simpl. by rewrite Hm. }
    rewrite Hlen. lia.
Qed.

Lemma X8_count_is_capped_witness :
  0 <= 2
  /\ (let b := run (new "1m" 2)
                 (map ProcessTrade
                    [mkTrade btc 10 1 1000; mkTrade btc 11 2 61000;
                     mkTrade btc 12 1 121000; mkTrade btc 13 1 181000]) in
      getKlineCount b btc = 3 /\ hasEnoughData b btc 4 = false).
Proof.
  split; [lia|]. cbv zeta. split; [vm_compute; reflexivity|].
  destruct (X8_count_is_capped (fun _ => "") "1m" 2
              (map ProcessTrade
                 [mkTrade btc 10 1 1000; mkTrade btc 11 2 61000;
                  mkTrade btc 12 1 121000; mkTrade btc 13 1 181000]) btc)
    as (_ & Hno & _); [lia|].
  apply Hno. lia.
Defined.

(** X9: for a builder made with an interval for which the constructor
    finds a number of milliseconds, after a trade has been processed the
    market has an open candle that covers the trade: its close is the
    trade's price, the price lies between its low and high, and the
    timestamp lies between its open and close time; the candles of every
    other market are as before. *)
Theorem X9_open_candle_covers_last_trade (interval : string) (maxK : Z) (ops : list op)
    (trade : ParadexTrade) :
  is_Some (constructedIntervalMs interval) ->
  let b := run (new interval maxK) ops in
  (exists k,
      getCurrentKline (processTrade b trade) (market trade) = Some k
      /\ close k = price trade
      /\ (low k <= price trade)%Q /\ (price trade <= high k)%Q
      /\ openTime k <= timestamp trade <= closeTime k)
  /\ (forall m, m <> market trade -> candles (processTrade b trade) m = candles b m).
Proof.
  intros _ b. split; [|intros m Hne; by apply candles_frame].
  destruct (run_allWellFormed ops _ (new_allWellFormed interval maxK))
    as (Hpos & _ & Hc). fold b in Hpos, Hc.
  destruct (KlineSpec.bucket_floor b (timestamp trade) Hpos) as [Hr _].
  assert (Hstart : forall k,
             k = startKline b (getKlineStartTime b (timestamp trade)) trade ->
             close k = price trade
             /\ (low k <= price trade)%Q /\ (price trade <= high k)%Q
             /\ openTime k <= timestamp trade <= closeTime k).
  { intros k ->. simpl. repeat split; try apply Qle_refl; lia. }
  destruct (currentKline b !! market trade) as [cur|] eqn:Ecur.
  - destruct (decide (openTime cur = getKlineStartTime b (timestamp trade)))
      as [He|Hn].
    + destruct (KlineSpec.processTrade_same_bucket b trade cur Ecur He) as [Hk _].
      exists (updateKline cur trade). split; [exact Hk|].
      destruct (Hc _ _ Ecur) as (_ & _ & _ & _ & _ & Hct).
      simpl. unfold Js.min, Js.max.
      split; [done|]. split; [apply Q.le_min_r|]. split; [apply Q.le_max_r|].
      rewrite Hct, He. lia.
    + destruct (KlineSpec.processTrade_other_bucket b trade cur Ecur Hn) as (Hk & _).
      eexists. split; [exact Hk|]. by apply Hstart.
  - destruct (KlineSpec.processTrade_first b trade Ecur) as [Hk _].
    eexists. split; [exact Hk|]. by apply Hstart.
Qed.

Lemma X9_open_candle_covers_last_trade_witness :
  let trade := KlineBuilder.mkTrade "ETH-USD-PERP" 2000 1 61000 in
  is_Some (constructedIntervalMs "1m")
  /\ "BTC-USD-PERP" <> market trade
  /\ candles (processTrade (run (new "1m" 100) []) trade) "BTC-USD-PERP"
     = candles (run (new "1m" 100) []) "BTC-USD-PERP".
Proof.
  cbv zeta.
  assert (Hi : is_Some (constructedIntervalMs "1m")) by (by eexists).
  split; [exact Hi|]. split; [simpl; discriminate|].
  destruct (X9_open_candle_covers_last_trade "1m" 100 []
              (KlineBuilder.mkTrade "ETH-USD-PERP" 2000 1 61000) Hi) as [_ H].
  apply H. simpl. discriminate.
Defined.

End KlineMore.

(** ** The signed client: how a call ends *)

Module SignedRestOutcomes.
Import SignedRest SignedRestMore.

(** The loop ends at the first attempt that does not ask for another. *)
Lemma requestLoop_first_settled (net : Z -> FetchOutcome) (retries k : Z)
    (r : RequestResult) (n : nat) :
  forall attempt : Z,
    0 <= attempt <= k -> k <= retries ->
    Z.of_nat n = retries + 1 - attempt ->
    (forall j, attempt <= j < k -> attemptOnce (net j) j retries = None) ->
    attemptOnce (net k) k retries = Some r ->
    requestLoop n attempt retries net = (r, k + 1).
Proof.
  induction n as [|n IH]; intros attempt Ha Hk Hn Hnone Hsome; [lia|].
  cbn [requestLoop].
  destruct (Z.leb_spec attempt retries) as [_|]; [|lia].
  destruct (decide (attempt = k)) as [->|Hne].
  - by rewrite Hsome.
  - rewrite Hnone by lia. apply IH; [lia | done | lia | | done].
    intros j Hj. apply Hnone. lia.
Qed.

Lemma request_first_settled (method : Method) (endpoint : string)
    (net : Z -> FetchOutcome) (retries k : Z) (r : RequestResult) :
  0 <= k <= retries ->
  (forall j, 0 <= j < k -> retryable (net j)) ->
  attemptOnce (net k) k retries = Some r ->
  request method endpoint retries net = (r, k + 1).
Proof.
  intros Hk Hretry Hsome. unfold request.
  apply requestLoop_first_settled; [lia | lia | lia | | done].
  intros j Hj. apply SignedRestSpec.attemptOnce_continue. split; [lia|].
  by apply Hretry.
Qed.

(** The attempt that ends a call, and the ones before it. *)
Lemma requestLoop_settles (net : Z -> FetchOutcome) (retries : Z) (n : nat) :
  forall attempt : Z,
    0 <= attempt <= retries ->
    Z.of_nat n = retries + 1 - attempt ->
    exists k,
      attempt <= k <= retries
      /\ snd (requestLoop n attempt retries net) = k + 1
      /\ attemptOnce (net k) k retries = Some (fst (requestLoop n attempt retries net))
      /\ forall j, attempt <= j < k -> retryable (net j).
Proof.
  induction n as [|n IH]; intros attempt Ha Hn; [lia|].
  cbn [requestLoop].
  destruct (Z.leb_spec attempt retries) as [_|]; [|lia].
  destruct (attemptOnce (net attempt) attempt retries) as [r|] eqn:E.
  - exists attempt. simpl. split; [lia|]. split; [done|]. split; [done|].
    intros j Hj. lia.
  - apply SignedRestSpec.attemptOnce_continue in E as [Hlt Hretry].
    destruct (IH (attempt + 1)) as (k & Hk & Hs & Hl & Hb); [lia | lia |].
    exists k. split; [lia|]. split; [done|]. split; [done|].
    intros j Hj. destruct (decide (j = attempt)) as [->|]; [done|].
    apply Hb. lia.
Qed.

(** X10: when every attempt of a call ends in an error response or in a
    network failure, the client sends exactly retries + 1 fetches and then
    throws the failure of the last one: the exception itself, or
    "Paradex API error <status>: <body>" for an error response. *)
Theorem X10_persistent_failure_exhausts_retries (method : Method) (endpoint : string)
    (retries : Z) (net : Z -> FetchOutcome) :
  0 <= retries ->
  (forall j, 0 <= j <= retries -> retryable (net j)) ->
  exists e,
    lastFailure (net retries) = Some e
    /\ request method endpoint retries net = (Thrown e, retries + 1).
Proof.
  intros Hr Hall.
  assert (Hlast : exists e, lastFailure (net retries) = Some e
                            /\ attemptOnce (net retries) retries retries = Some (Thrown e)).
  { specialize (Hall retries). unfold retryable, httpError, networkFailure in Hall.
    unfold attemptOnce, onCatch.
    destruct (net retries) as [e|[|] status [e|body]]; simpl;
      rewrite ?Z.ltb_irrefl, ?andb_false_r; eauto;
      destruct Hall as [H|H]; try lia; discriminate H. }
  destruct Hlast as (e & He & Hsome). exists e. split; [done|].
  apply request_first_settled; [lia | | done].
  intros j Hj. apply Hall. lia.
Qed.

Lemma X10_persistent_failure_exhausts_retries_witness :
  0 <= 3
  /\ request GET "/v1/account" 3 (fun _ => FetchResponse false 503 (inr "down"))
     = (Thrown (apiError 503 "down"), 4).
Proof.
  split; [lia|].
  destruct (X10_persistent_failure_exhausts_retries GET "/v1/account" 3
              (fun _ => FetchResponse false 503 (inr "down")))
    as (e & He & Hreq); [lia | intros j _; by left |].
  injection He as <-. exact Hreq.
Defined.

(** X11: after k attempts that ended in retryable failures (k <= retries),
    attempt k decides the call after k + 1 fetches: an OK response with a
    readable body resolves with its data; an OK response whose body
    cannot be read, and an exception that is no network failure, are
    thrown as they are, without a further attempt. *)
Theorem X11_decisive_attempt (method : Method) (endpoint : string)
    (retries k : Z) (net : Z -> FetchOutcome) :
  0 <= k <= retries ->
  (forall j, 0 <= j < k -> retryable (net j)) ->
  (forall status data,
      net k = FetchResponse true status (inr data) ->
      request method endpoint retries net = (Resolved data, k + 1))
  /\ (forall status e,
        net k = FetchResponse true status (inl e) ->
        request method endpoint retries net = (Thrown e, k + 1))
  /\ (forall e,
        net k = FetchRejected e -> isNetworkError e = false ->
        request method endpoint retries net = (Thrown e, k + 1)).
Proof.
  intros Hk Hretry. repeat split.
  - intros status data Hnet. apply request_first_settled; [done|done|].
    by rewrite Hnet.
  - intros status e Hnet. apply request_first_settled; [done|done|].
    by rewrite Hnet.
  - intros e Hnet Hne. apply request_first_settled; [done|done|].
    rewrite Hnet. unfold attemptOnce, onCatch. by rewrite Hne.
Qed.

Lemma X11_decisive_attempt_witness :
  0 <= 1 <= 3
  /\ request POST "/v1/orders" 3
       (fun k => if k =? 0 then FetchRejected (mkError "TypeError" "fetch failed")
                 else FetchResponse true 200 (inl (mkError "SyntaxError" "Unexpected token")))
     = (Thrown (mkError "SyntaxError" "Unexpected token"), 1 + 1).
Proof.
  split; [lia|].
  set (net := fun k : Z =>
                if k =? 0 then FetchRejected (mkError "TypeError" "fetch failed")
                else FetchResponse true 200 (inl (mkError "SyntaxError" "Unexpected token"))).
  destruct (X11_decisive_attempt POST "/v1/orders" 3 1 net) as (_ & H & _).
  - lia.
  - intros j Hj. assert (j = 0) as -> by lia. right. reflexivity.
  - exact (H 200 _ eq_refl).
Defined.

(** X12: orderExists and cancelOrder answer true exactly when one of the
    4 attempts receives an OK response with a readable body after nothing
    but retryable failures; an error status and a network outage both give
    false. *)
Theorem X12_order_queries (orderId : string) (net : Z -> FetchOutcome) :
  (orderExists orderId net = true <->
   exists k status data,
     0 <= k <= 3 /\ (forall j, 0 <= j < k -> retryable (net j))
     /\ net k = FetchResponse true status (inr data))
  /\ cancelOrder orderId net = orderExists orderId net.
Proof.
  assert (Hsame : forall method endpoint method' endpoint',
             request method endpoint 3 net = request method' endpoint' 3 net) by done.
  split; [|unfold cancelOrder, orderExists;
            by rewrite (Hsame DELETE ("/v1/orders/" +:+ orderId)
                          GET ("/v1/orders/" +:+ orderId))].
  unfold orderExists. split.
  - intros H.
    destruct (requestLoop_settles net 3 (Z.to_nat (3 + 1)) 0) as (k & Hk & _ & Hl & Hb);
      [lia | lia |].
    fold (request GET ("/v1/orders/" +:+ orderId) 3 net) in Hl.
    destruct (fst (request GET ("/v1/orders/" +:+ orderId) 3 net)) as [d|e];
      [|discriminate H].
    unfold attemptOnce, onCatch in Hl.
    destruct (net k) as [e|[|] status [e|body]] eqn:En; simpl in Hl;
      repeat match type of Hl with
             | context [if ?c then _ else _] => destruct c
             end; try discriminate Hl.
    injection Hl as ->. exists k, status, d. split; [lia|]. split; [|done].
    intros j Hj. apply Hb. lia.
  - intros (k & status & data & Hk & Hb & Hnet).
    rewrite (request_first_settled GET _ net 3 k (Resolved data)); [done|done|done|].
    by rewrite Hnet.
Qed.

Lemma X12_order_queries_witness :
  orderExists "42" error_then_ok = true
  /\ cancelOrder "42" error_then_ok = true.
Proof.
  destruct (X12_order_queries "42" error_then_ok) as [[_ H] Hc].
  assert (He : orderExists "42" error_then_ok = true).
  { apply H. exists 1, 200, "{}". split; [lia|]. split; [|reflexivity].
    intros j Hj. assert (j = 0) as -> by lia. by left. }
  split; [exact He|]. by rewrite Hc.
Defined.

End SignedRestOutcomes.

(** ** The signed client: positions *)

Module SignedRestQuantities.
Import SignedRest SignedRestMore.

Section Positions.

Variable parseFloat : string -> Q.

Lemma symbol_of_own_market (base : string) :
  SymbolMapper.no_dash base = true ->
  SymbolMapper.fromParadex (SymbolMapper.toParadex (base +:+ "USDT")) = base +:+ "USDT".
Proof.
  intros Hd. unfold SymbolMapper.fromParadex, SymbolMapper.toParadex.
  rewrite SymbolMapperSpec.strip_USDT_suffix.
  change "-USD-PERP" with (String "-"%char "USD-PERP").
  by rewrite SymbolMapperSpec.split_dash_0_prefix.
Qed.

(** X14: getPosition answers with a position only if the account holds a
    position of non-zero size whose market maps to the symbol, and the
    answer then carries that symbol; for a symbol BASE+"USDT" with a
    dash-free BASE it does answer whenever the account holds a non-zero
    position on the market toParadex(symbol). *)
Theorem X14_getPosition_finds_mapped_market (positions : list ParadexPosition)
    (symbol' : string) :
  (forall e,
      getPosition parseFloat positions symbol' = Some e ->
      symbol e = symbol'
      /\ exists p, In p positions
                   /\ Js.eq (parseFloat (size p)) 0 = false
                   /\ e = toExchangePosition p)
  /\ (forall base p,
        symbol' = base +:+ "USDT" -> SymbolMapper.no_dash base = true ->
        In p positions ->
        market p = SymbolMapper.toParadex symbol' ->
        Js.eq (parseFloat (size p)) 0 = false ->
        exists e, getPosition parseFloat positions symbol' = Some e
                  /\ symbol e = symbol').
Proof.
  split.
  - intros e He. unfold getPosition in He.
    apply List.find_some in He as [Hin Heq].
    apply String.eqb_eq in Heq. split; [done|].
    unfold getPositions in Hin. apply List.in_map_iff in Hin as (p & <- & Hp).
    apply List.filter_In in Hp as [Hp Hnz].
    exists p. split; [done|]. split; [|done].
    by apply negb_true_iff in Hnz.
  - intros base p -> Hd Hin Hm Hnz.
    destruct (getPosition parseFloat positions (base +:+ "USDT")) as [e|] eqn:E.
    + exists e. split; [done|].
      unfold getPosition in E. apply List.find_some in E as [_ Heq].
      by apply String.eqb_eq in Heq.
    + exfalso. unfold getPosition in E.
      pose proof (List.find_none _ _ E (toExchangePosition p)) as Hnone.
      assert (Hin' : In (toExchangePosition p) (getPositions parseFloat positions)).
      { unfold getPositions. apply List.in_map. apply List.filter_In.
        split; [done|]. by rewrite Hnz. }
      specialize (Hnone Hin'). simpl in Hnone.
      rewrite Hm, symbol_of_own_market in Hnone by done.
      by rewrite String.eqb_refl in Hnone.
Qed.

End Positions.

Lemma X14_getPosition_finds_mapped_market_witness :
  let parse := fun s : string => if String.eqb s "0" then 0%Q else 1%Q in
  let held := mkParadexPosition "ETH-USD-PERP" SHORT "1.5" "2000" "2010" "-15" "300" None in
  let flat := mkParadexPosition "BTC-USD-PERP" LONG "0" "0" "0" "0" "0" None in
  exists e, getPosition parse [flat; held] "ETHUSDT" = Some e
            /\ symbol e = "ETHUSDT".
Proof.
  cbv zeta.
  apply (proj2 (X14_getPosition_finds_mapped_market
                  (fun s : string => if String.eqb s "0" then 0%Q else 1%Q)
                  [mkParadexPosition "BTC-USD-PERP" LONG "0" "0" "0" "0" "0" None;
                   mkParadexPosition "ETH-USD-PERP" SHORT "1.5" "2000" "2010" "-15" "300" None]
                  "ETHUSDT") "ETH"
           (mkParadexPosition "ETH-USD-PERP" SHORT "1.5" "2000" "2010" "-15" "300" None));
    [reflexivity | reflexivity | right; left; reflexivity | reflexivity | reflexivity].
Defined.

End SignedRestQuantities.

(** ** The JWT client: how a call ends *)

Module JwtRequestOutcomes.
Import SignedRest JwtRequest.

Lemma jwt_attemptOnce_continue (authenticated : bool) (a : Attempt) (attempt retries : Z) :
  attemptOnce authenticated a attempt retries = None <->
  attempt <> retries /\ threw authenticated a.
Proof.
  unfold attemptOnce, onCatch, threw.
  destruct authenticated, (token a) as [e|tok], (fetched a) as [e'|ok status body];
    destruct (Z.eqb_spec attempt retries); split;
    try discriminate; try (intros [? ?]; congruence);
    try (intros _; split; [done|]; eauto);
    try (intros [_ [[? [? ?]]|[? ?]]]; congruence).
Qed.

(** The message of the exception an attempt ended with. *)
Lemma attemptOnce_last (authenticated : bool) (a : Attempt) (retries : Z) :
  threw authenticated a ->
  exists e,
    attemptOnce authenticated a retries retries
    = Some (Returned (mkAPIResponse false None (Some (message e))))
    /\ ((authenticated = true /\ token a = inl e) \/ fetched a = FetchRejected e).
Proof.
  unfold attemptOnce, onCatch, threw. rewrite Z.eqb_refl.
  destruct authenticated, (token a) as [e|tok], (fetched a) as [e'|ok status body];
    intros [[? [? ?]]|[? ?]]; try congruence; eauto.
Qed.

Lemma jwt_requestLoop_settles (authenticated : bool) (net : Z -> Attempt) (retries : Z)
    (n : nat) :
  forall attempt : Z,
    0 <= attempt <= retries ->
    Z.of_nat n = retries + 1 - attempt ->
    exists k,
      attempt <= k <= retries
      /\ snd (requestLoop n authenticated attempt retries net) = k + 1
      /\ attemptOnce authenticated (net k) k retries
         = Some (fst (requestLoop n authenticated attempt retries net))
      /\ forall j, attempt <= j < k -> threw authenticated (net j).
Proof.
  induction n as [|n IH]; intros attempt Ha Hn; [lia|].
  cbn [requestLoop].
  destruct (Z.leb_spec attempt retries) as [_|]; [|lia].
  destruct (attemptOnce authenticated (net attempt) attempt retries) as [r|] eqn:E.
  - exists attempt. simpl. split; [lia|]. split; [done|]. split; [done|].
    intros j Hj. lia.
  - apply jwt_attemptOnce_continue in E as [Hne Hthrew].
    destruct (IH (attempt + 1)) as (k & Hk & Hs & Hl & Hb); [lia | lia |].
    exists k. split; [lia|]. split; [done|]. split; [done|].
    intros j Hj. destruct (decide (j = attempt)) as [->|]; [done|].
    apply Hb. lia.
Qed.

Lemma request_settles (method : Method) (endpoint : string) (authenticated : bool)
    (retries : Z) (net : Z -> Attempt) :
  0 <= retries ->
  exists k,
    0 <= k <= retries
    /\ snd (request method endpoint authenticated retries net) = k + 1
    /\ attemptOnce authenticated (net k) k retries
       = Some (fst (request method endpoint authenticated retries net))
    /\ forall j, 0 <= j < k -> threw authenticated (net j).
Proof.
  intros Hr. unfold request. apply jwt_requestLoop_settles; lia.
Qed.

(** X15: the JWT client never retries after a response.  A further
    attempt follows attempt k only if k ended in an exception (the token
    could not be obtained, or fetch rejected); the attempt that receives a
    response ends the call with what handleResponse makes of it, so an
    error status comes back as success = false with "HTTP <status>:
    <text>" and the request is not sent again. *)
Theorem X15_jwt_client_stops_at_first_response (method : Method) (endpoint : string)
    (authenticated : bool) (retries : Z) (net : Z -> Attempt) :
  0 <= retries ->
  let r := request method endpoint authenticated retries net in
  1 <= snd r <= retries + 1
  /\ (forall k, 0 <= k -> k + 1 < snd r -> threw authenticated (net k))
  /\ (forall ok status body,
        fetched (net (snd r - 1)) = FetchResponse ok status body ->
        ~ threw authenticated (net (snd r - 1)) ->
        fst r = handleResponse ok status body)
  /\ (forall e, fst r = Rejected e ->
        exists ok status, fetched (net (snd r - 1)) = FetchResponse ok status (inl e)).
Proof.
  intros Hr r.
  destruct (request_settles method endpoint authenticated retries net Hr)
    as (k & Hk & Hs & Hl & Hb).
  fold r in Hs, Hl. rewrite Hs. replace (k + 1 - 1) with k by lia.
  split; [lia|]. split; [intros j Hj Hlt; apply Hb; lia|]. split.
  - intros ok status body Hf Hnt.
    unfold attemptOnce, onCatch, threw in Hl, Hnt. rewrite Hf in Hl.
    destruct authenticated, (token (net k)) as [e|tok]; simpl in Hl;
      try (injection Hl as <-; done).
    exfalso. apply Hnt. left. eauto.
  - intros e He. rewrite He in Hl. unfold attemptOnce, onCatch in Hl.
    destruct (if authenticated then token (net k) else inr "") as [e'|tok].
    + destruct (k =? retries); discriminate Hl.
    + destruct (fetched (net k)) as [e'|ok status body].
      * destruct (k =? retries); discriminate Hl.
      * unfold handleResponse in Hl. destruct body as [e'|text].
        -- injection Hl as ->. eauto.
        -- destruct (negb ok); discriminate Hl.
Qed.

Lemma X15_jwt_client_stops_at_first_response_witness :
  0 <= 3
  /\ placeOrder rejected500
     = (Returned (mkAPIResponse false None (Some "HTTP 500: busy")), 1).
Proof.
  split; [lia|].
  destruct (X15_jwt_client_stops_at_first_response POST "/orders" true 3 rejected500)
    as (_ & _ & H & _); [lia|].
  assert (Hs : snd (request POST "/orders" true 3 rejected500) = 1)
    by (vm_compute; reflexivity).
  rewrite Hs in H. specialize (H false 500 (inr "busy") eq_refl).
  unfold placeOrder.
  destruct (request POST "/orders" true 3 rejected500) as [res sent].
  simpl in *. subst sent. f_equal. apply H.
  intros [[_ [e He]]|[e He]]; discriminate He.
Defined.

(** X16: when every attempt ends in an exception, the JWT client runs
    retries + 1 attempts and then returns, without rejecting, a response
    with success = false whose error is the message of the last
    exception. *)
Theorem X16_jwt_client_reports_last_exception (method : Method) (endpoint : string)
    (authenticated : bool) (retries : Z) (net : Z -> Attempt) :
  0 <= retries ->
  (forall j, 0 <= j <= retries -> threw authenticated (net j)) ->
  exists e,
    request method endpoint authenticated retries net
    = (Returned (mkAPIResponse false None (Some (message e))), retries + 1)
    /\ ((authenticated = true /\ token (net retries) = inl e)
        \/ fetched (net retries) = FetchRejected e).
Proof.
  intros Hr Hall.
  destruct (request_settles method endpoint authenticated retries net Hr)
    as (k & Hk & Hs & Hl & Hb).
  assert (k = retries) as ->.
  { destruct (decide (k = retries)) as [|Hne]; [done|].
    assert (Hnone : attemptOnce authenticated (net k) k retries = None).
    { apply jwt_attemptOnce_continue. split; [done|]. apply Hall. lia. }
    congruence. }
  destruct (attemptOnce_last authenticated (net retries) retries) as (e & He & Hwhich).
  { apply Hall. lia. }
  exists e. split; [|done].
  rewrite He in Hl. injection Hl as Hl.
  destruct (request method endpoint authenticated retries net) as [res sent].
  simpl in *. by subst.
Qed.

Lemma X16_jwt_client_reports_last_exception_witness :
  0 <= 3
  /\ placeOrder (fun _ => mkAttempt (inr "jwt") (FetchRejected (mkError "TypeError" "fetch failed")))
     = (Returned (mkAPIResponse false None (Some "fetch failed")), 4).
Proof.
  split; [lia|].
  destruct (X16_jwt_client_reports_last_exception POST "/orders" true 3
              (fun _ => mkAttempt (inr "jwt")
                          (FetchRejected (mkError "TypeError" "fetch failed"))))
    as (e & Hreq & Hwhich); [lia | intros j _; right; eauto |].
  destruct Hwhich as [[_ He]|He]; [discriminate He|].
  injection He as <-. exact Hreq.
Defined.

End JwtRequestOutcomes.

(** ** The agent: bookkeeping, reconciliation and orders *)

Module AgentBookkeeping.
Import Agent AgentMore.

Lemma check_stats (s : State) (ref : nat) (p : Position) (now : Z) :
  let s' := checkPositionExitConditions s ref p now in
  totalTrades s' = totalTrades s /\ winningTrades s' = winningTrades s
  /\ dailyPnL s' = dailyPnL s /\ totalPnL s' = totalPnL s
  /\ emitted s' = emitted s.
Proof.
  cbv zeta. by destruct (AgentSpec.check_cases s ref p now) as [->|[reason ->]].
Qed.

Lemma store_stats (s : State) (m : string) (p : Position) :
  let s' := storePosition s m p in
  totalTrades s' = totalTrades s /\ winningTrades s' = winningTrades s
  /\ dailyPnL s' = dailyPnL s /\ totalPnL s' = totalPnL s
  /\ emitted s' = emitted s.
Proof. done. Qed.

Lemma sync_stats (data : list ParadexPosAPI) (now : Z) :
  forall s : State,
    let s' := syncPositions_resume s data now in
    totalTrades s' = totalTrades s /\ winningTrades s' = winningTrades s
    /\ dailyPnL s' = dailyPnL s /\ totalPnL s' = totalPnL s
    /\ emitted s' = emitted s.
Proof.
  induction data as [|a data IH]; intros s; [done|].
  cbv zeta. simpl.
  destruct (IH (match convertPosition s a now with
                | Some position => storePosition s (api_market a) position
                | None => s
                end)) as (-> & -> & -> & -> & ->).
  by destruct (convertPosition s a now).
Qed.

Lemma filter_snoc_length (f : Emitted -> bool) (es : list Emitted) (e : Emitted) :
  Z.of_nat (length (List.filter f (es ++ [e])))
  = Z.of_nat (length (List.filter f es)) + (if f e then 1 else 0).
Proof.
  rewrite List.filter_app, length_app. simpl. destruct (f e); simpl; lia.
Qed.

Lemma step_statsConsistent (s : State) (e : event) :
  statsConsistent s -> statsConsistent (step s e).
Proof.
  intros (Hw & Hp & Ht). unfold statsConsistent.
  destruct e as [m price ts now|a now|dat now|call resp|call]; simpl.
  - unfold handleTickerUpdate, updatePositionPrices. simpl.
    destruct (positions s !! m) as [ref|];
      [destruct (heap s !! ref) as [p|]|];
      try match goal with
          | |- context [checkPositionExitConditions ?s0 ?r ?p0 ?n] =>
              destruct (check_stats s0 r p0 n) as (-> & -> & -> & -> & ->)
          end;
      simpl; rewrite filter_snoc_length; simpl; (split; [lia|split; [done|lia]]).
  - unfold handlePositionUpdate.
    destruct (convertPosition s a now); simpl;
      rewrite filter_snoc_length; simpl; (split; [lia|split; [done|lia]]).
  - by destruct (sync_stats dat now s) as (-> & -> & -> & -> & ->).
  - destruct (awaiting s !! call) as [[ref reason]|]; [|done].
    destruct (heap s !! ref) as [p|]; [|done].
    unfold closePosition_resume.
    destruct (success resp); [|done]. destruct (data resp); [|done].
    simpl. rewrite filter_snoc_length. simpl.
    split; [destruct (Js.gt _ _); lia|]. split; [by rewrite Hp | lia].
  - done.
Qed.

Lemma run_statsConsistent (es : list event) :
  forall s : State, statsConsistent s -> statsConsistent (run s es).
Proof.
  induction es as [|e es IH]; intros s Hs; [done|].
  simpl. apply IH. by apply step_statsConsistent.
Qed.

(** The events named position_closed that are no trades. *)
Lemma step_positionClosed (s : State) (e : event) :
  positionClosedEvents (emitted (step s e)) - totalTrades (step s e)
  = positionClosedEvents (emitted s) - totalTrades s
    + (if sizeZeroMessage e then 1 else 0).
Proof.
  unfold positionClosedEvents.
  destruct e as [m price ts now|a now|dat now|call resp|call]; simpl.
  - unfold handleTickerUpdate, updatePositionPrices. simpl.
    destruct (positions s !! m) as [ref|];
      [destruct (heap s !! ref) as [p|]|];
      try match goal with
          | |- context [checkPositionExitConditions ?s0 ?r ?p0 ?n] =>
              destruct (check_stats s0 r p0 n) as (-> & _ & _ & _ & ->)
          end;
      simpl; rewrite filter_snoc_length; simpl; lia.
  - unfold handlePositionUpdate, convertPosition.
    destruct (Js.eq (api_size a) 0); simpl; rewrite filter_snoc_length; simpl; lia.
  - destruct (sync_stats dat now s) as (-> & _ & _ & _ & ->). lia.
  - destruct (awaiting s !! call) as [[ref reason]|]; [|lia].
    destruct (heap s !! ref) as [p|]; [|simpl; lia].
    unfold closePosition_resume.
    destruct (success resp); [|simpl; lia]. destruct (data resp); [|simpl; lia].
    simpl. rewrite filter_snoc_length. simpl. lia.
  - lia.
Qed.

Lemma run_positionClosed (es : list event) :
  forall s : State,
    positionClosedEvents (emitted (run s es)) - totalTrades (run s es)
    = positionClosedEvents (emitted s) - totalTrades s + sizeZeroMessages es.
Proof.
  induction es as [|e es IH]; intros s; [unfold sizeZeroMessages; simpl; lia|].
  simpl. rewrite IH, step_positionClosed. unfold sizeZeroMessages. simpl.
  destruct (sizeZeroMessage e); simpl length; lia.
Qed.

(** X17: in every state the agent reaches from its initial state, the
    winning trades are between 0 and the total trades, so the win rate
    lies between 0 and 1; the total is the number of position_closed
    events that closePosition emitted, while the number of all events
    named position_closed is that total plus the number of position
    messages of size 0, for which handlePositionUpdate emits the same
    event name without booking a trade; and dailyPnL equals totalPnL, the
    two being only ever increased together. *)
Theorem X17_statistics_consistent (agent user : string) (cfg : ScalperConfig)
    (es : list event) :
  let s := run (init agent user cfg) es in
  0 <= winningTrades s <= totalTrades s
  /\ totalTrades s = closedCount (emitted s)
  /\ positionClosedEvents (emitted s) = totalTrades s + sizeZeroMessages es
  /\ dailyPnL s = totalPnL s
  /\ (0 <= winRate s)%Q /\ (winRate s <= 1)%Q.
Proof.
  intros s.
  destruct (run_statsConsistent es (init agent user cfg)) as (Hw & Hp & Ht).
  { split; [simpl; lia|]. split; [done|]. simpl. lia. }
  pose proof (run_positionClosed es (init agent user cfg)) as Hn.
  fold s in Hw, Hp, Ht, Hn.
  split; [done|]. split; [exact Ht|].
  split; [change (positionClosedEvents (emitted (init agent user cfg))) with 0 in Hn;
          change (totalTrades (init agent user cfg)) with 0 in Hn; lia|].
  split; [done|].
  unfold winRate. destruct (Z.gtb_spec (totalTrades s) 0) as [Hpos|].
  - assert (Ht0 : (0 < inject_Z (totalTrades s))%Q)
      by (rewrite <- (Zlt_Qlt 0); lia).
    split.
    + apply Qle_shift_div_l; [done|]. rewrite Qmult_0_l.
      rewrite <- (Zle_Qle 0). lia.
    + apply Qle_shift_div_r; [done|]. rewrite Qmult_1_l.
      rewrite <- Zle_Qle. lia.
  - split; [apply Qle_refl | discriminate].
Qed.

(** X18: every successful response to a close call is booked, whether or
    not the position is still live: two close calls for one position that
    both succeed count two trades and add the position's P&L twice. *)
Theorem X18_each_successful_close_is_booked (s : State) (call1 call2 ref : nat)
    (reason1 reason2 : string) (p : Position) (o1 o2 : ParadexOrder) :
  call1 <> call2 ->
  awaiting s !! call1 = Some (ref, reason1) ->
  awaiting s !! call2 = Some (ref, reason2) ->
  heap s !! ref = Some p ->
  let s' := run s [OrderReturned call1 (accepted o1); OrderReturned call2 (accepted o2)] in
  totalTrades s' = totalTrades s + 1 + 1
  /\ totalPnL s' = (totalPnL s + unrealizedPnl p + unrealizedPnl p)%Q
  /\ positions s' !! symbol p = None.
Proof.
  intros Hne H1 H2 Hp s'. subst s'. cbn [run fold_left].
  assert (Hs1 : step s (OrderReturned call1 (accepted o1))
                = closePosition_resume (wake s call1) p reason1 (accepted o1)).
  { simpl. by rewrite H1, Hp. }
  rewrite Hs1.
  set (s1 := closePosition_resume (wake s call1) p reason1 (accepted o1)).
  assert (Hs2 : step s1 (OrderReturned call2 (accepted o2))
                = closePosition_resume (wake s1 call2) p reason2 (accepted o2)).
  { simpl. rewrite lookup_delete_ne by done. by rewrite H2, Hp. }
  rewrite Hs2. simpl. split; [done|]. split; [done|].
  apply lookup_delete_eq.
Qed.

Lemma X18_each_successful_close_is_booked_witness :
  let s := run opened [Ticker btc 90 1 1; Ticker btc 89 2 2] in
  let o := mkOrder "order-1" filled 1 in
  totalTrades (run s [OrderReturned 0 (accepted o); OrderReturned 1 (accepted o)]) = 2
  /\ totalTrades s = 0.
Proof.
  cbv zeta.
  set (s := run opened [Ticker btc 90 1 1; Ticker btc 89 2 2]).
  assert (H1 : awaiting s !! 0%nat = Some (0%nat, "stop_loss"))
    by (vm_compute; reflexivity).
  assert (H2 : awaiting s !! 1%nat = Some (0%nat, "stop_loss"))
    by (vm_compute; reflexivity).
  eassert (Hp : heap s !! 0%nat = Some _) by (vm_compute; reflexivity).
  assert (H0 : totalTrades s = 0) by (vm_compute; reflexivity).
  split; [|exact H0].
  destruct (X18_each_successful_close_is_booked s 0 1 0 _ _ _
              (mkOrder "order-1" filled 1) (mkOrder "order-1" filled 1)
              ltac:(discriminate) H1 H2 Hp) as (Ht & _).
  rewrite Ht, H0. reflexivity.
Defined.

End AgentBookkeeping.

(** ** The agent: reconciliation with the exchange *)

Module AgentReconciliation.
Import Agent AgentMore.

(** X19: the two reconciliation paths differ.  A position message with
    size 0 removes the local position of its market whatever the state;
    the REST synchronisation never removes a position: every market that
    was live before syncPositions is live after it, also when the
    exchange lists it with size 0 or not at all. *)
Theorem X19_only_the_stream_removes (s : State) :
  (forall a now,
      Js.eq (api_size a) 0 = true ->
      positions (step s (PositionsMsg a now)) !! api_market a = None)
  /\ (forall data now m,
        is_Some (positions s !! m) ->
        is_Some (positions (step s (PositionsSynced data now)) !! m)).
Proof.
  split.
  - intros a now Hz. simpl. unfold handlePositionUpdate, convertPosition.
    rewrite Hz. simpl. apply lookup_delete_eq.
  - intros data now m Hm. simpl. by apply AgentSpec.sync_keeps.
Qed.

Lemma X19_only_the_stream_removes_witness :
  let gone := mkApiPos btc long 0 100 100 0 10 10 5 in
  is_Some (positions opened !! btc)
  /\ is_Some (positions (step opened (PositionsSynced [gone] 5)) !! btc)
  /\ positions (step opened (PositionsMsg gone 5)) !! btc = None.
Proof.
  cbv zeta.
  assert (Hlive : is_Some (positions opened !! btc))
    by (exists 0%nat; vm_compute; reflexivity).
  destruct (X19_only_the_stream_removes opened) as [Hmsg Hsync].
  split; [exact Hlive|]. split.
  - exact (Hsync [mkApiPos btc long 0 100 100 0 10 10 5] 5 btc Hlive).
  - exact (Hmsg (mkApiPos btc long 0 100 100 0 10 10 5) 5 eq_refl).
Defined.

(** X20: a position message with a non-zero size replaces the position
    object of its market by a fresh one whose extrema restart at the
    snapshot's ROE.  A close call placed before still holds the old
    object: when it returns successfully it removes the new position from
    the live map and books and reports the P&L of the old object. *)
Theorem X20_stale_close_removes_fresh_snapshot (s : State) (call ref : nat)
    (reason : string) (old fresh : Position) (a : ParadexPosAPI) (now : Z)
    (order : ParadexOrder) :
  awaiting s !! call = Some (ref, reason) ->
  heap s !! ref = Some old ->
  api_market a = symbol old ->
  convertPosition s a now = Some fresh ->
  let s1 := step s (PositionsMsg a now) in
  let s2 := step s1 (OrderReturned call (accepted order)) in
  livePosition s1 (symbol old) = Some fresh
  /\ highestROE fresh = unrealizedROE fresh /\ lowestROE fresh = unrealizedROE fresh
  /\ positions s2 !! symbol old = None
  /\ totalPnL s2 = (totalPnL s + unrealizedPnl old)%Q
  /\ last (emitted s2)
     = Some (EmPositionClosed old reason (unrealizedPnl old) (unrealizedROE old)).
Proof.
  intros Ha Hold Hm Hconv s1 s2.
  assert (Hs1 : s1 = emit (storePosition s (api_market a) fresh) (EmPositionUpdate fresh)).
  { unfold s1. simpl. unfold handlePositionUpdate. by rewrite Hconv. }
  assert (Hlen : (ref < length (heap s))%nat) by by eapply lookup_lt_Some.
  split.
  { rewrite Hs1. unfold livePosition. simpl. rewrite <- Hm, lookup_insert_eq. simpl.
    rewrite lookup_app_r by lia. by rewrite Nat.sub_diag. }
  assert (Hx : highestROE fresh = unrealizedROE fresh
               /\ lowestROE fresh = unrealizedROE fresh).
  { unfold convertPosition in Hconv. destruct (Js.eq _ _); [discriminate|].
    by injection Hconv as <-. }
  destruct Hx as [Hhi Hlo]. split; [done|]. split; [done|].
  assert (Hs2 : s2 = closePosition_resume (wake s1 call) old reason (accepted order)).
  { unfold s2. simpl. rewrite Hs1. simpl. rewrite Ha.
    rewrite lookup_app_l by done. by rewrite Hold. }
  rewrite Hs2. simpl. split; [apply lookup_delete_eq|]. split.
  - by rewrite Hs1.
  - apply last_snoc.
Qed.

Lemma X20_stale_close_removes_fresh_snapshot_witness :
  let snapshot := mkApiPos btc long 2 95 96 2 10 19 7 in
  let s1 := step closing (PositionsMsg snapshot 7) in
  let s2 := step s1 (OrderReturned 0 (accepted (mkOrder "order-1" filled 1))) in
  is_Some (livePosition s1 btc) /\ positions s2 !! btc = None.
Proof.
  cbv zeta.
  assert (Ha : awaiting closing !! 0%nat = Some (0%nat, "stop_loss"))
    by (vm_compute; reflexivity).
  eassert (Hold : heap closing !! 0%nat = Some _) by (vm_compute; reflexivity).
  eassert (Hconv : convertPosition closing (mkApiPos btc long 2 95 96 2 10 19 7) 7
                   = Some _) by (vm_compute; reflexivity).
  destruct (X20_stale_close_removes_fresh_snapshot closing 0 0 _ _ _
              (mkApiPos btc long 2 95 96 2 10 19 7) 7 (mkOrder "order-1" filled 1)
              Ha Hold eq_refl Hconv) as (Hlive & _ & _ & Hgone & _).
  split; [by eexists | exact Hgone].
Defined.

End AgentReconciliation.

(** ** The agent: orders and running extrema *)

Module AgentOrders.
Import Agent AgentMore.

Lemma mirrors_insert (s : State) (h' : list Position) (ref : nat) (p : Position)
    (price : Q) (now : Z) (c : MarketOrderCall) :
  heap s !! ref = Some p ->
  h' = <[ref := reprice p price now]> (heap s) ->
  mirrorsPosition s c ->
  exists q, q ∈ h' /\ c = closeCall q.
Proof.
  intros Hp -> (q & Hq & ->).
  apply list_elem_of_lookup in Hq as [i Hi].
  destruct (decide (i = ref)) as [->|Hne].
  - exists (reprice p price now). split.
    + apply list_elem_of_lookup. exists ref.
      apply list_lookup_insert_eq. by eapply lookup_lt_Some.
    + rewrite Hp in Hi. by injection Hi as <-.
  - exists q. split; [|done]. apply list_elem_of_lookup. exists i.
    by rewrite list_lookup_insert_ne.
Qed.

Lemma sync_orders_heap (data : list ParadexPosAPI) (now : Z) :
  forall s : State,
    orders (syncPositions_resume s data now) = orders s
    /\ exists more, heap (syncPositions_resume s data now) = heap s ++ more.
Proof.
  induction data as [|a data IH]; intros s.
  - split; [done|]. exists []. by rewrite app_nil_r.
  - simpl.
    destruct (IH (match convertPosition s a now with
                  | Some position => storePosition s (api_market a) position
                  | None => s
                  end)) as [Ho [more Hh]].
    fold (syncPositions_resume
            (match convertPosition s a now with
             | Some position => storePosition s (api_market a) position
             | None => s
             end) data now).
    rewrite Ho, Hh. destruct (convertPosition s a now) as [p|]; simpl.
    + split; [done|]. exists ([p] ++ more). by rewrite app_assoc.
    + split; [done|]. by exists more.
Qed.

Lemma step_mirrors (s : State) (e : event) :
  Forall (mirrorsPosition s) (orders s) ->
  Forall (mirrorsPosition (step s e)) (orders (step s e)).
Proof.
  intros Hall. rewrite Forall_forall in Hall. apply Forall_forall.
  destruct e as [m price ts now|a now|dat now|call resp|call]; simpl.
  - unfold handleTickerUpdate, updatePositionPrices. simpl.
    destruct (positions s !! m) as [ref|]; [|exact Hall].
    destruct (heap s !! ref) as [p|] eqn:Hp; [|exact Hall].
    match goal with
    | |- context [checkPositionExitConditions ?s0 ?r ?p0 ?n] =>
        destruct (AgentSpec.check_cases s0 r p0 n) as [->|[reason ->]]
    end; simpl.
    + intros c Hc. by eapply mirrors_insert; [exact Hp | | apply Hall].
    + intros c Hc. apply elem_of_app in Hc as [Hc|Hc].
      * by eapply mirrors_insert; [exact Hp | | apply Hall].
      * apply list_elem_of_singleton in Hc as ->.
        exists (reprice p price now). split; [|done].
        apply list_elem_of_lookup. exists ref.
        apply list_lookup_insert_eq. by eapply lookup_lt_Some.
  - unfold handlePositionUpdate.
    destruct (convertPosition s a now) as [p|]; simpl; [|exact Hall].
    intros c Hc. destruct (Hall c Hc) as (q & Hq & ->).
    exists q. split; [|done]. apply elem_of_app. by left.
  - destruct (sync_orders_heap dat now s) as [Ho [more Hh]].
    rewrite Ho. intros c Hc. destruct (Hall c Hc) as (q & Hq & ->).
    exists q. split; [|done]. unfold mirrorsPosition. rewrite Hh.
    apply elem_of_app. by left.
  - destruct (awaiting s !! call) as [[ref reason]|]; [|exact Hall].
    destruct (heap s !! ref) as [p|]; [|exact Hall].
    unfold closePosition_resume.
    destruct (success resp); [|exact Hall]. destruct (data resp); exact Hall.
  - exact Hall.
Qed.

Lemma run_mirrors (es : list event) :
  forall s : State,
    Forall (mirrorsPosition s) (orders s) ->
    Forall (mirrorsPosition (run s es)) (orders (run s es)).
Proof.
  induction es as [|e es IH]; intros s Hs; [done|].
  simpl. apply IH. by apply step_mirrors.
Qed.

(** X21: every order the agent has placed, in any state it can reach, is
    a reduce-only market order that mirrors one of its position objects:
    the position's market and size, and the opposite side. *)
Theorem X21_orders_mirror_positions (agent user : string) (cfg : ScalperConfig)
    (es : list event) (c : MarketOrderCall) :
  c ∈ orders (run (init agent user cfg) es) ->
  call_reduce_only c = true
  /\ exists p,
      p ∈ heap (run (init agent user cfg) es)
      /\ call_market c = symbol p
      /\ call_size c = size p
      /\ call_side c = match side p with long => sell | short => buy end.
Proof.
  intros Hc.
  assert (H0 : Forall (mirrorsPosition (init agent user cfg))
                 (orders (init agent user cfg))) by constructor.
  pose proof (run_mirrors es (init agent user cfg) H0) as H.
  rewrite Forall_forall in H.
  destruct (H c Hc) as (p & Hp & ->).
  split; [done|]. by exists p.
Qed.

Lemma X21_orders_mirror_positions_witness :
  mkCall btc sell 1 true ∈ orders (run (init "agent" "system" cfg0)
                                     [PositionsMsg apiLong 0; Ticker btc 90 1 1])
  /\ call_reduce_only (mkCall btc sell 1 true) = true.
Proof.
  assert (H : mkCall btc sell 1 true
              ∈ orders (run (init "agent" "system" cfg0)
                          [PositionsMsg apiLong 0; Ticker btc 90 1 1]))
    by (vm_compute; constructor).
  split; [exact H|].
  exact (proj1 (X21_orders_mirror_positions "agent" "system" cfg0 _ _ H)).
Defined.

(** The ROE a price gives a position. *)
Lemma reprice_roe_static (p : Position) (price price' : Q) (now now' : Z) :
  unrealizedROE (reprice (reprice p price now) price' now')
  = unrealizedROE (reprice p price' now').
Proof. reflexivity. Qed.





End AgentOrders.

(** ** The streaming session of the agent: reconnection and keys *)

Module StreamSessionSpec.
Import StreamSession.

Lemma closes_schedule (codes : list Z) :
  forall s : t,
    Forall (fun code => code <> 1000) codes ->
    0 <= reconnectAttempts s <= 10 ->
    reconnectAttempts (closes s codes)
    = reconnectAttempts s + Z.min (Z.of_nat (length codes)) (10 - reconnectAttempts s)
    /\ timers (closes s codes)
       = timers s ++ ((fun i => 5000 * i)
                      <$> seqZ (reconnectAttempts s + 1)
                            (Z.min (Z.of_nat (length codes)) (10 - reconnectAttempts s))).
Proof.
  induction codes as [|code codes IH]; intros s Hall Ha.
  - simpl. rewrite Z.min_l by lia. simpl.
    split; [lia | by rewrite app_nil_r].
  - apply Forall_cons in Hall as [Hcode Hall].
    assert (Hc : (code =? 1000) = false) by by apply Z.eqb_neq.
    cbn [closes fold_left]. fold (closes (onClose s code) codes).
    rewrite length_cons.
    destruct (Z.ltb_spec (reconnectAttempts s) 10) as [Hlt|Hge].
    + assert (Hs : reconnectAttempts (onClose s code) = reconnectAttempts s + 1
                   /\ timers (onClose s code)
                      = timers s ++ [5000 * (reconnectAttempts s + 1)]).
      { unfold onClose, maxReconnectAttempts. simpl. rewrite Hc.
        destruct (Z.ltb_spec (reconnectAttempts s) 10); [|lia]. simpl.
        unfold reconnectDelay. split; [done|]. f_equal. f_equal. lia. }
      destruct Hs as [Hs1 Hs2].
      destruct (IH (onClose s code) Hall) as [Hr Ht]; [lia|].
      rewrite Hs1 in Hr, Ht. rewrite Hs2 in Ht.
      split; [rewrite Hr; lia|].
      rewrite Ht, <- app_assoc. f_equal.
      rewrite (seqZ_cons (reconnectAttempts s + 1)) by lia.
      rewrite fmap_cons. cbn [app]. f_equal.
      replace (Z.succ (reconnectAttempts s + 1)) with (reconnectAttempts s + 1 + 1) by lia.
      replace (Z.pred (Z.min (Z.of_nat (S (length codes))) (10 - reconnectAttempts s)))
        with (Z.min (Z.of_nat (length codes)) (10 - (reconnectAttempts s + 1))) by lia.
      done.
    + assert (Hs : reconnectAttempts (onClose s code) = reconnectAttempts s
                   /\ timers (onClose s code) = timers s).
      { unfold onClose, maxReconnectAttempts. simpl.
        destruct (Z.ltb_spec (reconnectAttempts s) 10); [lia|].
        by rewrite andb_false_r. }
      destruct Hs as [Hs1 Hs2].
      destruct (IH (onClose s code) Hall) as [Hr Ht]; [lia|].
      rewrite Hs1 in Hr, Ht. rewrite Hs2 in Ht.
      rewrite Z.min_r in Hr, Ht by lia. rewrite Z.min_r by lia.
      split; [lia|]. by rewrite Ht.
Qed.

(** X24: after the connection was open (attempt counter 0), a run of n
    abnormal closes (code other than 1000) schedules the reconnect delays
    5000, 10000, ... one per close, but only for the first 10 closes: the
    counter stops at 10, the longest delay is 50000 ms, so the cap of
    60000 ms is never applied, and later closes schedule nothing; a close
    with code 1000 never schedules a reconnect. *)
Theorem X24_reconnect_schedule (s : t) (codes : list Z) :
  reconnectAttempts s = 0 ->
  Forall (fun code => code <> 1000) codes ->
  let n := Z.min (Z.of_nat (length codes)) 10 in
  reconnectAttempts (closes s codes) = n
  /\ timers (closes s codes) = timers s ++ ((fun i => 5000 * i) <$> seqZ 1 n)
  /\ Forall (fun d => d <= 50000) ((fun i => 5000 * i) <$> seqZ 1 n)
  /\ timers (onClose s 1000) = timers s.
Proof.
  intros H0 Hall n.
  destruct (closes_schedule codes s Hall) as [Hr Ht]; [lia|].
  rewrite H0 in Hr, Ht. simpl in Hr, Ht.
  replace (10 - 0) with 10 in Hr, Ht by lia. fold n in Hr, Ht.
  split; [exact Hr|]. split; [exact Ht|]. split.
  - apply Forall_fmap, Forall_forall. intros i Hi. simpl.
    apply elem_of_seqZ in Hi. lia.
  - unfold onClose. simpl. done.
Qed.

Lemma X24_reconnect_schedule_witness :
  reconnectAttempts (onOpen (connect new)) = 0
  /\ timers (closes (onOpen (connect new)) [1006; 1006; 1006]) = [5000; 10000; 15000].
Proof.
  assert (H0 : reconnectAttempts (onOpen (connect new)) = 0) by reflexivity.
  split; [exact H0|].
  destruct (X24_reconnect_schedule (onOpen (connect new)) [1006; 1006; 1006] H0)
    as (_ & Ht & _); [repeat constructor; discriminate|].
  rewrite Ht. reflexivity.
Defined.

(** X25: disconnect() does not stop a reconnect that is already
    scheduled: the timer stays, and when it fires the client opens a new
    socket although it was disconnected by hand, with the subscription
    set emptied by the disconnect. *)
Theorem X25_disconnect_keeps_reconnect_timer (s : t) (delay : Z) (rest : list Z) :
  timers s = delay :: rest ->
  isConnecting s = false ->
  timers (disconnect s) = delay :: rest
  /\ ws (timerFires (disconnect s)) = Some false
  /\ isConnecting (timerFires (disconnect s)) = true
  /\ (is_Some (ws s) -> subscriptions (timerFires (disconnect s)) = []).
Proof.
  intros Ht Hc. unfold timerFires, disconnect, connect.
  destruct (ws s) as [o|] eqn:Hws; simpl; rewrite Ht; simpl.
  - rewrite Hc. simpl. by repeat split.
  - rewrite Hws, Hc. simpl. repeat split; try done.
Qed.

Lemma X25_disconnect_keeps_reconnect_timer_witness :
  let s := onClose (onOpen (connect new)) 1006 in
  timers s = [5000]
  /\ ws (disconnect s) = None
  /\ isConnecting (timerFires (disconnect s)) = true.
Proof.
  cbv zeta.
  assert (Ht : timers (onClose (onOpen (connect new)) 1006) = 5000 :: []) by reflexivity.
  split; [exact Ht|]. split; [reflexivity|].
  destruct (X25_disconnect_keeps_reconnect_timer _ 5000 [] Ht eq_refl) as (_ & _ & H & _).
  exact H.
Defined.

Lemma split_colon_no_colon (s : string) :
  no_colon s = true -> split_colon s = [s].
Proof.
  induction s as [|c s IH]; [done|].
  simpl. intros H. apply andb_true_iff in H as [Hc Hs].
  destruct (Ascii.eqb c ":"%char); [discriminate Hc|]. by rewrite IH.
Qed.

Lemma split_colon_append (a b : string) :
  no_colon a = true ->
  split_colon (a +:+ ":" +:+ b) = a :: split_colon b.
Proof.
  induction a as [|c a IH]; [done|].
  simpl. intros H. apply andb_true_iff in H as [Hc Ha].
  destruct (Ascii.eqb c ":"%char); [discriminate Hc|].
  change (a +:+ String ":" b) with (a +:+ ":" +:+ b). by rewrite IH.
Qed.

(** X26: the key of a subscription reads back as the channel and market
    it was made from, provided neither contains a colon: resubscribe
    splits the key into the same channel and market, and subscribing with
    them stores the same key again. *)
Theorem X26_subscription_key_roundtrip (channel : string) (market : option string) :
  no_colon channel = true ->
  (forall m, market = Some m -> no_colon m = true) ->
  let key := subscriptionKey channel market in
  parseKey key
  = (Some channel,
     match market with
     | Some m => if String.eqb m "" then None else Some m
     | None => None
     end)
  /\ subscriptionKey (default "" (parseKey key).1) (parseKey key).2 = key.
Proof.
  intros Hc Hm key. subst key. unfold parseKey, subscriptionKey.
  destruct market as [m|].
  - destruct (String.eqb m "") eqn:Em.
    + rewrite split_colon_no_colon by done. done.
    + rewrite split_colon_append by done.
      rewrite split_colon_no_colon by by apply Hm.
      simpl. by rewrite Em.
  - rewrite split_colon_no_colon by done. done.
Qed.

Lemma X26_subscription_key_roundtrip_witness :
  no_colon "ticker" = true
  /\ parseKey (subscriptionKey "ticker" (Some "BTC-USD-PERP"))
     = (Some "ticker", Some "BTC-USD-PERP")
  /\ parseKey (subscriptionKey "ticker" (Some "BTC:USD")) = (Some "ticker", Some "BTC").
Proof.
  split; [reflexivity|]. split; [|reflexivity].
  refine (proj1 (X26_subscription_key_roundtrip "ticker" (Some "BTC-USD-PERP") eq_refl _)).
  intros m [= <-]. reflexivity.
Defined.

End StreamSessionSpec.

(** ** The streaming client of the execution service *)

Module ExecStreamSpec.
Import ExecStream.

Lemma onClose_fields (s : t) :
  (reconnectAttempts s < 10 ->
   reconnectAttempts (onClose s) = reconnectAttempts s + 1
   /\ reconnectTimeout (onClose s) = Some (1000 * 2 ^ reconnectAttempts s)
   /\ gaveUp (onClose s) = gaveUp s)
  /\ (10 <= reconnectAttempts s ->
      reconnectAttempts (onClose s) = reconnectAttempts s
      /\ reconnectTimeout (onClose s) = reconnectTimeout s
      /\ gaveUp (onClose s) = true).
Proof.
  unfold onClose, handleReconnect, maxReconnectAttempts, reconnectDelay. simpl.
  destruct (Z.geb_spec (reconnectAttempts s) 10); split; intros; try lia; simpl.
  - done.
  - split; [done|]. split; [|done]. do 3 f_equal. lia.
Qed.

Lemma handleReconnect_fields (s : t) :
  (reconnectAttempts s < 10 ->
   reconnectAttempts (handleReconnect s) = reconnectAttempts s + 1
   /\ reconnectTimeout (handleReconnect s) = Some (1000 * 2 ^ reconnectAttempts s)
   /\ gaveUp (handleReconnect s) = gaveUp s)
  /\ (10 <= reconnectAttempts s ->
      reconnectAttempts (handleReconnect s) = reconnectAttempts s
      /\ reconnectTimeout (handleReconnect s) = reconnectTimeout s
      /\ gaveUp (handleReconnect s) = true).
Proof.
  unfold handleReconnect, maxReconnectAttempts, reconnectDelay.
  destruct (Z.geb_spec (reconnectAttempts s) 10); split; intros; try lia; simpl.
  - done.
  - split; [done|]. split; [|done]. do 3 f_equal. lia.
Qed.

(** The events that call handleReconnect change the three fields as it
    does; a timer that fires leaves them. *)
Lemma step_fields (s : t) (e : event) :
  if reconnects e then
    (reconnectAttempts s < 10 ->
     reconnectAttempts (step s e) = reconnectAttempts s + 1
     /\ reconnectTimeout (step s e) = Some (1000 * 2 ^ reconnectAttempts s)
     /\ gaveUp (step s e) = gaveUp s)
    /\ (10 <= reconnectAttempts s ->
        reconnectAttempts (step s e) = reconnectAttempts s
        /\ reconnectTimeout (step s e) = reconnectTimeout s
        /\ gaveUp (step s e) = true)
  else
    reconnectAttempts (step s e) = reconnectAttempts s
    /\ reconnectTimeout (step s e) = reconnectTimeout s
    /\ gaveUp (step s e) = gaveUp s.
Proof.
  destruct e; simpl.
  - apply onClose_fields.
  - done.
  - apply handleReconnect_fields.
Qed.

(** X27: the execution stream client backs off exponentially and gives
    up after 10 calls of handleReconnect.  In any run of close events,
    reconnect timers that fire and rejected reconnects (no socket opens,
    no disconnect()), starting from attempt counter 0, handleReconnect is
    called by every close event and by every rejected reconnect: after n
    such calls the counter is min(n, 10) and the newest timer has the
    delay 1000 * 2^(min(n, 10) - 1) ms, 512000 ms at most; from the 11th
    call on no timer is set and max_reconnect_attempts is emitted. *)
Theorem X27_exponential_backoff_then_give_up (s : t) (es : list event) :
  reconnectAttempts s = 0 ->
  gaveUp s = false ->
  let n := reconnectCalls es in
  let s' := run s es in
  reconnectAttempts s' = Z.min n 10
  /\ (1 <= n -> reconnectTimeout s' = Some (1000 * 2 ^ (Z.min n 10 - 1)))
  /\ (gaveUp s' = true <-> 10 < n).
Proof.
  intros H0 Hg. cbv zeta. induction es as [|e es IH] using rev_ind.
  - unfold reconnectCalls. simpl. split; [lia|]. split; [lia|].
    rewrite Hg. split; [discriminate|lia].
  - destruct IH as (Ha & Ht & Hu).
    unfold run in *. rewrite fold_left_app. simpl.
    set (sn := fold_left step es s) in *.
    assert (Hn : reconnectCalls (es ++ [e])
                 = reconnectCalls es + (if reconnects e then 1 else 0)).
    { unfold reconnectCalls. rewrite List.filter_app, length_app. simpl.
      destruct (reconnects e); simpl; lia. }
    rewrite Hn. pose proof (step_fields sn e) as Hs.
    assert (Hpos : 0 <= reconnectCalls es) by (unfold reconnectCalls; lia).
    destruct (reconnects e).
    + destruct Hs as [Hlt Hge].
      destruct (Z.lt_ge_cases (reconnectAttempts sn) 10) as [Hc|Hc].
      * destruct (Hlt Hc) as (-> & -> & ->). rewrite Ha in *.
        split; [lia|]. split.
        -- intros _. do 3 f_equal. lia.
        -- rewrite Hu. lia.
      * destruct (Hge Hc) as (-> & -> & ->). rewrite Ha in *.
        split; [lia|]. split.
        -- intros _. rewrite Ht by lia. do 3 f_equal. lia.
        -- split; [lia|done].
    + destruct Hs as (-> & -> & ->). rewrite Z.add_0_r. done.
Qed.

Lemma X27_exponential_backoff_then_give_up_witness :
  let fresh := mkClient true 0 true true ["trades.ETH-USD-PERP"] true None false in
  let attempt := [Closed; TimerFired; Closed; ConnectRejected] in
  reconnectTimeout (run fresh attempt) = Some 4000
  /\ reconnectAttempts (run fresh (attempt ++ attempt ++ attempt ++ attempt)) = 10
  /\ gaveUp (run fresh (attempt ++ attempt ++ attempt ++ attempt)) = true.
Proof.
  cbv zeta.
  set (fresh := mkClient true 0 true true ["trades.ETH-USD-PERP"] true None false).
  set (attempt := [Closed; TimerFired; Closed; ConnectRejected]).
  destruct (X27_exponential_backoff_then_give_up fresh attempt eq_refl eq_refl)
    as (_ & H1 & _).
  destruct (X27_exponential_backoff_then_give_up fresh
              (attempt ++ attempt ++ attempt ++ attempt) eq_refl eq_refl)
    as (H2 & _ & H3).
  split; [rewrite H1; [reflexivity|by vm_compute]|].
  split; [rewrite H2; reflexivity|].
  apply H3. by vm_compute.
Defined.

(** X28: in the execution stream client a manual disconnect() of a
    client that holds a socket is undone by that socket's close event:
    disconnect cancels the reconnect timer and empties the channel set,
    but the close handler calls handleReconnect all the same, so while
    fewer than 10 attempts were made a new reconnect timer is set, with
    no channel left to resubscribe. *)
Theorem X28_close_after_disconnect_reconnects (s : t) :
  wsPresent s = true ->
  0 <= reconnectAttempts s < 10 ->
  reconnectTimeout (disconnect s) = None
  /\ reconnectTimeout (onClose (disconnect s)) = Some (1000 * 2 ^ reconnectAttempts s)
  /\ subscribedChannels (onClose (disconnect s)) = [].
Proof.
  intros _ Ha. split; [done|].
  destruct (onClose_fields (disconnect s)) as [Hlt _].
  destruct Hlt as (_ & Ht & _); [simpl; lia|].
  split; [exact Ht|].
  unfold onClose, handleReconnect. by destruct (_ >=? _).
Qed.

Lemma X28_close_after_disconnect_reconnects_witness :
  let live := mkClient true 0 true true ["trades.ETH-USD-PERP"] true None false in
  wsPresent live = true
  /\ 0 <= reconnectAttempts live < 10
  /\ reconnectTimeout (onClose (disconnect live)) = Some 1000.
Proof.
  cbv zeta. split; [reflexivity|]. split; [simpl; lia|].
  destruct (X28_close_after_disconnect_reconnects
              (mkClient true 0 true true ["trades.ETH-USD-PERP"] true None false))
    as (_ & H & _); [reflexivity|simpl; lia|].
  exact H.
Defined.

Lemma substring_all (s : string) : String.substring 0 (String.length s) s = s.
Proof. induction s as [|c s IH]; [done|]. simpl. by rewrite IH. Qed.

Lemma removeFirst_trades (market : string) :
  String.prefix "trades." (tradesChannel market) = true
  /\ removeFirst "trades." (tradesChannel market) = market
  /\ String.prefix "orderbook." (tradesChannel market) = false.
Proof.
  assert (Hp : String.prefix "trades." ("trades." +:+ market) = true)
    by by destruct market.
  split; [exact Hp|]. split; [|reflexivity].
  unfold tradesChannel.
  change ("trades." +:+ market) with (String "t"%char ("rades." +:+ market)) in *.
  cbn [removeFirst]. rewrite Hp. simpl.
  rewrite Nat.sub_0_r. apply substring_all.
Qed.

Lemma ingest_frame (trades : list KlineBuilder.ParadexTrade) (market m : string) :
  forall b : KlineBuilder.t,
    Forall (fun tr => KlineBuilder.market tr = market) trades ->
    m <> market ->
    KlineQueries.candles (KlineBuilder.ingest b trades) m = KlineQueries.candles b m.
Proof.
  induction trades as [|tr trades IH]; intros b Hall Hne; [done|].
  apply Forall_cons in Hall as [Hm Hall]. simpl.
  fold (KlineBuilder.ingest (KlineBuilder.processTrade b tr) trades).
  rewrite IH by done. apply KlineMore.candles_frame. by rewrite Hm.
Qed.

(** X29: a subscription message on the channel that subscribeTrades made
    for a market is turned into one trade event per element, in order,
    each tagged with that market and with the message time in place of a
    missing or zero timestamp; fed to the candle builder, these trades
    change the candles of that market only. *)
Theorem X29_trades_message_feeds_one_market (parseFloat : string -> Q)
    (market : string) (raws : list RawTrade) (now : Z) :
  let es := handleSubscriptionMessage (Some (Some (tradesChannel market), Some raws)) now in
  es = List.map (fun raw => EmTrade (mkTrade market (raw_price raw) (raw_size raw)
                                       (raw_side raw)
                                       (timestampOr (raw_timestamp raw) now))) raws
       ++ [EmChannel (Some (tradesChannel market))]
  /\ length (tradesOf parseFloat es) = length raws
  /\ (forall b m, m <> market ->
        KlineQueries.candles (KlineBuilder.ingest b (tradesOf parseFloat es)) m
        = KlineQueries.candles b m).
Proof.
  intros es.
  destruct (removeFirst_trades market) as (Hp & Hr & Ho).
  assert (Hes : es = List.map (fun raw => EmTrade (mkTrade market (raw_price raw)
                                                     (raw_size raw) (raw_side raw)
                                                     (timestampOr (raw_timestamp raw) now)))
                       raws
                     ++ [EmChannel (Some (tradesChannel market))]).
  { unfold es, handleSubscriptionMessage. cbv zeta.
    change (default "" (Some (tradesChannel market))) with (tradesChannel market).
    by rewrite Hp, Hr, Ho. }
  split; [exact Hes|].
  assert (Htr : tradesOf parseFloat es
                = List.map (fun raw => KlineBuilder.mkTrade market
                                         (parseFloat (raw_price raw))
                                         (parseFloat (raw_size raw))
                                         (timestampOr (raw_timestamp raw) now)) raws).
  { rewrite Hes. unfold tradesOf. clear. induction raws as [|raw raws IH]; [done|].
    simpl. f_equal. exact IH. }
  split; [by rewrite Htr, length_map|].
  intros b m Hne. apply (ingest_frame _ market); [|done].
  rewrite Htr. apply Forall_forall. intros tr Htr'.
  apply list_elem_of_In, List.in_map_iff in Htr' as (raw & <- & _). done.
Qed.

Lemma X29_trades_message_feeds_one_market_witness :
  let parse := fun s : string => if String.eqb s "2000" then 2000%Q else 1%Q in
  let es := handleSubscriptionMessage
              (Some (Some (tradesChannel "ETH-USD-PERP"),
                     Some [mkRawTrade "2000" "1" "buy" None])) 1000 in
  "BTC-USD-PERP" <> "ETH-USD-PERP"
  /\ KlineQueries.candles
       (KlineBuilder.ingest (KlineBuilder.new "1m" 100) (tradesOf parse es)) "BTC-USD-PERP"
     = []
  /\ tradesOf parse es = [KlineBuilder.mkTrade "ETH-USD-PERP" 2000 1 1000].
Proof.
  cbv zeta. split; [discriminate|]. split; [|reflexivity].
  destruct (X29_trades_message_feeds_one_market
              (fun s : string => if String.eqb s "2000" then 2000%Q else 1%Q)
              "ETH-USD-PERP" [mkRawTrade "2000" "1" "buy" None] 1000) as (_ & _ & H).
  rewrite (H (KlineBuilder.new "1m" 100) "BTC-USD-PERP") by discriminate.
  reflexivity.
Defined.

End ExecStreamSpec.
